(** * ionic-tasks: the persistence service [DatabaseService]

    A shallow embedding of [src/services/databaseService.ts] and the
    properties of its operations on the two backends it switches between:
    the browser backend (one JSON array under the localStorage key
    ['ionic-tasks']) and the native backend (the SQLite table [tasks] of the
    file [tasks.db]).

    Modelling conventions.
    - Every [async] method is awaited by its caller before the next one is
      issued, so a method is a state transformer that settles: [Promise A] is
      a function from the service state to a settled result and a new state.
    - What a method reads from its surroundings (the clock, [Math.random], the
      outcome of [fetch] and of [FileReader], SQLite's [CURRENT_TIMESTAMP]) is
      passed in a [World] record.
    - [localStorage.setItem] / [removeItem] and the calls of the SQLite driver
      on an open connection succeed: quota errors and driver faults are outside
      the model, and so is an initialization the driver rejects.  Every write to localStorage and every call of the driver is
      recorded in the [log] of the state.
    - [JSON.parse (JSON.stringify tasks)] gives back [tasks]: the stored
      document is kept in parsed form, a property that is [undefined] is
      [None].
    - A partial update passed to [updateTask] names no property with the
      value [undefined]: each property is absent or holds a value.
    - The two renderings of an instant, [toISOString] and SQLite's
      ['YYYY-MM-DD HH:MM:SS'], are fixed-width strings whose lexicographic
      order is the order of the instants; the model keeps the instant. *)

From Stdlib Require Import ZArith QArith Qround Qabs List String Bool Lia.
From Stdlib Require Import Sorted Permutation Ascii.
Import ListNotations.

(** ** JavaScript values *)

Module JS.

(** A JS [number] is a binary64 value; the model keeps its exact rational
    value.  [binary64] rounds a rational to the nearest double (ties to even,
    53-bit significand, subnormals below 2^-1022; overflow is not modelled). *)
Definition number := Q.

Definition floor_log2 (q : Q) : Z :=
  let k := (Z.log2 (Qnum q) - Z.log2 (Zpos (Qden q)))%Z in
  if Qle_bool (Qpower 2 k) q then k else (k - 1)%Z.

Definition round_half_even (q : Q) : Z :=
  let f := Qfloor q in
  match ((q - inject_Z f) ?= (1 # 2))%Q with
  | Lt => f
  | Gt => (f + 1)%Z
  | Eq => if Z.even f then f else (f + 1)%Z
  end.

Definition binary64 (q : Q) : number :=
  match Qnum q with
  | Z0 => 0%Q
  | _ =>
    let a := Qabs q in
    let e := Z.max (floor_log2 a - 52) (-1074) in
    let m := round_half_even (a / Qpower 2 e)%Q in
    Qred ((if Qle_bool 0 q then 1 else - (1)) * inject_Z m * Qpower 2 e)%Q
  end.

(** [a + b] on numbers. *)
Definition add (a b : number) : number := binary64 (a + b)%Q.

(** [a === b] on numbers. *)
Definition strict_eq (a b : number) : bool := Qeq_bool a b.

(** Truthiness of a string, and of a property that may be undefined. *)
Definition truthy (s : string) : bool :=
  match s with EmptyString => false | _ => true end.

Definition truthy_opt (o : option string) : bool :=
  match o with Some s => truthy s | None => false end.

(** [a || b] on optional strings. *)
Definition or_else (a b : option string) : option string :=
  if truthy_opt a then a else b.

(** [o || ''] *)
Definition or_empty (o : option string) : string :=
  match o with Some s => if truthy s then s else EmptyString | None => EmptyString end.

(** [n || 0] on an integer. *)
Definition or_zero (n : Z) : Z := if (n =? 0)%Z then 0%Z else n.

(** [s.startsWith(p)] *)
Definition startsWith (s p : string) : bool := String.prefix p s.

(** [Boolean(n)] on an integer column value. *)
Definition Boolean (n : Z) : bool := negb (n =? 0)%Z.

(** What a rejected promise carries: an [Error] with its message, or the
    event [FileReader] hands to [onerror]. *)
Inductive Thrown :=
| Error (message : string)
| ProgressEvent (type : string).

Inductive Settled (A : Type) :=
| Fulfilled (value : A)
| Rejected (reason : Thrown).

Arguments Fulfilled {A} value.
Arguments Rejected {A} reason.

End JS.
Import JS.

(** The two renderings of an instant that [created_at] holds. *)
Inductive DateString :=
| ISO (ms : Z)          (* new Date().toISOString(), milliseconds since the epoch *)
| DATETIME (sec : Z).   (* SQLite CURRENT_TIMESTAMP, seconds since the epoch *)

Definition instant (d : DateString) : Z :=
  match d with
  | ISO ms => ms
  | DATETIME sec => (1000 * sec)%Z
  end.

(** ** The task record *)

Record ITask := {
  id : option number;
  text : string;
  image_filepath : string;
  image_webview_path : option string;
  image_base64 : option string;
  completed : bool;
  created_at : option DateString
}.

(** [Partial<Omit<ITask, 'id' | 'created_at'>>], for updates whose present
    properties hold a value: [Some v] is a property present with value [v],
    [None] a property that is absent.  An update that names a property with
    the value [undefined] is not among these (on the browser backend the
    spread would leave a record without that field, which is no [ITask]). *)
Record Updates := {
  upd_text : option string;
  upd_image_filepath : option string;
  upd_image_webview_path : option string;
  upd_image_base64 : option string;
  upd_completed : option bool
}.


(** [{ ...task, ...updates }] *)
Definition spread (task : ITask) (updates : Updates) : ITask :=
  {| id := id task;
     text := match upd_text updates with Some v => v | None => text task end;
     image_filepath :=
       match upd_image_filepath updates with Some v => v | None => image_filepath task end;
     image_webview_path :=
       match upd_image_webview_path updates with
       | Some v => Some v
       | None => image_webview_path task
       end;
     image_base64 :=
       match upd_image_base64 updates with Some v => Some v | None => image_base64 task end;
     completed :=
       match upd_completed updates with Some v => v | None => completed task end;
     created_at := created_at task |}.

(** [task.id === id'], false for a record without [id]. *)
Definition has_id (id' : number) (task : ITask) : bool :=
  match id task with
  | Some n => strict_eq n id'
  | None => false
  end.

(** [tasks.findIndex(pred)], [None] for -1. *)
Fixpoint findIndex {A : Type} (pred : A -> bool) (l : list A) : option nat :=
  match l with
  | [] => None
  | x :: r => if pred x then Some O else option_map S (findIndex pred r)
  end.

(** [tasks[i] = f (tasks[i])] for an index inside the array, which is what
    [findIndex] returns. *)
Fixpoint modify {A : Type} (l : list A) (i : nat) (f : A -> A) : list A :=
  match l, i with
  | [], _ => []
  | x :: r, O => f x :: r
  | x :: r, S j => x :: modify r j f
  end.

(** ** The SQLite engine, as far as the service's five statements use it *)

Module SQLite.

(** A row of [tasks].  The service writes text columns from strings and
    [completed] from 0 and 1; the columns are never NULL in a table it wrote. *)
Record Row := {
  row_id : Z;
  row_text : string;
  row_image_filepath : string;
  row_image_webview_path : string;
  row_image_base64 : string;
  row_completed : Z;
  row_created_at : Z          (* CURRENT_TIMESTAMP, whole seconds *)
}.

(** [tasks.db]: the table in rowid order, and the AUTOINCREMENT counter that
    [sqlite_sequence] keeps for it. *)
Record Database := {
  tasks : list Row;
  sqlite_sequence : Z
}.

Inductive Column :=
| col_text
| col_image_filepath
| col_image_webview_path
| col_image_base64
| col_completed.

(** A bind parameter. *)
Inductive Value :=
| TEXT (s : string)
| INTEGER (n : Z)
| REAL (x : number).

Fixpoint max_rowid (rows : list Row) : Z :=
  match rows with
  | [] => 0%Z
  | r :: rest => Z.max (row_id r) (max_rowid rest)
  end.

(** [id INTEGER PRIMARY KEY AUTOINCREMENT]: one more than the largest rowid the
    table has ever held. *)
Definition next_rowid (d : Database) : Z :=
  (Z.max (sqlite_sequence d) (max_rowid (tasks d)) + 1)%Z.

(** [INSERT INTO tasks (text, image_filepath, image_webview_path,
    image_base64, completed) VALUES (?, ?, ?, ?, ?)]; [created_at] takes its
    default.  Returns [changes.lastId]. *)
Definition insert (text' filepath webview base64 : string) (completed' : Z)
    (current_timestamp : Z) (d : Database) : Z * Database :=
  let rowid := next_rowid d in
  (rowid,
   {| tasks := tasks d ++
        [ {| row_id := rowid; row_text := text'; row_image_filepath := filepath;
             row_image_webview_path := webview; row_image_base64 := base64;
             row_completed := completed'; row_created_at := current_timestamp |} ];
      sqlite_sequence := rowid |}).

(** [WHERE id = ?]: numeric comparison of the rowid with the parameter. *)
Definition id_is (key : Value) (r : Row) : bool :=
  match key with
  | INTEGER n => (row_id r =? n)%Z
  | REAL x => Qeq_bool (inject_Z (row_id r)) x
  | TEXT _ => false
  end.

(** One [column = ?] of a SET list.  The service binds strings to the text
    columns and 0 or 1 to [completed]; other pairings do not occur and leave
    the row alone here. *)
Definition set_column (r : Row) (a : Column * Value) : Row :=
  match a with
  | (col_text, TEXT s) =>
    {| row_id := row_id r; row_text := s; row_image_filepath := row_image_filepath r;
       row_image_webview_path := row_image_webview_path r;
       row_image_base64 := row_image_base64 r; row_completed := row_completed r;
       row_created_at := row_created_at r |}
  | (col_image_filepath, TEXT s) =>
    {| row_id := row_id r; row_text := row_text r; row_image_filepath := s;
       row_image_webview_path := row_image_webview_path r;
       row_image_base64 := row_image_base64 r; row_completed := row_completed r;
       row_created_at := row_created_at r |}
  | (col_image_webview_path, TEXT s) =>
    {| row_id := row_id r; row_text := row_text r;
       row_image_filepath := row_image_filepath r; row_image_webview_path := s;
       row_image_base64 := row_image_base64 r; row_completed := row_completed r;
       row_created_at := row_created_at r |}
  | (col_image_base64, TEXT s) =>
    {| row_id := row_id r; row_text := row_text r;
       row_image_filepath := row_image_filepath r;
       row_image_webview_path := row_image_webview_path r; row_image_base64 := s;
       row_completed := row_completed r; row_created_at := row_created_at r |}
  | (col_completed, INTEGER n) =>
    {| row_id := row_id r; row_text := row_text r;
       row_image_filepath := row_image_filepath r;
       row_image_webview_path := row_image_webview_path r;
       row_image_base64 := row_image_base64 r; row_completed := n;
       row_created_at := row_created_at r |}
  | _ => r
  end.

(** [UPDATE tasks SET f1 = ?, ..., fn = ? WHERE id = ?] run with the
    parameters [values]: one per field, then the id. *)
Definition update (fields : list Column) (values : list Value) (d : Database)
    : Database :=
  match nth_error values (List.length fields) with
  | Some key =>
    {| tasks :=
         map (fun r => if id_is key r
                       then fold_left set_column (combine fields values) r
                       else r) (tasks d);
       sqlite_sequence := sqlite_sequence d |}
  | None => d
  end.

(** SQL [NOT] on an integer. *)
Definition sql_not (n : Z) : Z := if (n =? 0)%Z then 1%Z else 0%Z.

(** [UPDATE tasks SET completed = NOT completed WHERE id = ?] *)
Definition toggle (key : Value) (d : Database) : Database :=
  {| tasks :=
       map (fun r => if id_is key r
                     then set_column r (col_completed, INTEGER (sql_not (row_completed r)))
                     else r) (tasks d);
     sqlite_sequence := sqlite_sequence d |}.

(** [DELETE FROM tasks WHERE id = ?] *)
Definition delete (key : Value) (d : Database) : Database :=
  {| tasks := filter (fun r => negb (id_is key r)) (tasks d);
     sqlite_sequence := sqlite_sequence d |}.

(** [ORDER BY created_at DESC]: SQLite's sorter is a stable merge over the
    rowid-ordered scan, so rows with equal keys stay in rowid order. *)
Fixpoint place (r : Row) (sorted : list Row) : list Row :=
  match sorted with
  | [] => [r]
  | r' :: rest =>
    if (row_created_at r <? row_created_at r')%Z
    then r' :: place r rest
    else r :: sorted
  end.

Fixpoint order_by_created_at_desc (rows : list Row) : list Row :=
  match rows with
  | [] => []
  | r :: rest => place r (order_by_created_at_desc rest)
  end.

(** [SELECT id, text, image_filepath, image_webview_path, image_base64,
    completed, created_at FROM tasks ORDER BY created_at DESC] *)
Definition select_all (d : Database) : list Row :=
  order_by_created_at_desc (tasks d).

End SQLite.

(** ** The service *)

Inductive SQLiteDBConnection := connection (dbName : string).

(** What the key ['ionic-tasks'] holds: a string [JSON.parse] rejects, or the
    serialized array. *)
Inductive Item :=
| Unparsable
| TaskArray (tasks : list ITask).

Inductive IO :=
| setItem
| removeItem
| db_open
| db_execute
| db_run
| db_query
| db_close.

Record DatabaseService := {
  isWeb : bool;
  db : option SQLiteDBConnection;
  localStorage : option Item;        (* the item under storageKey; None: no item *)
  tasks_db : SQLite.Database;        (* the file dbName *)
  log : list IO                      (* storage calls made so far, newest first *)
}.

Definition dbName : string := "tasks.db"%string.

Inductive FileReaderEvent :=
| onload (result : string)
| onerror.

Inductive Response :=
| fetch_rejects
| blob_rejects
| blob (read : FileReaderEvent).

Record World := {
  Storage_defined : bool;        (* typeof Storage !== "undefined" *)
  Date_now : Z;                  (* Date.now() *)
  Math_random : number;          (* Math.random() *)
  new_Date : Z;                  (* new Date(), in milliseconds *)
  fetch : string -> Response;    (* fetch(path), response.blob(), readAsDataURL *)
  CURRENT_TIMESTAMP : Z          (* SQLite's clock, in seconds *)
}.

Definition Promise (A : Type) : Type :=
  DatabaseService -> Settled A * DatabaseService.

Definition ret {A : Type} (a : A) : Promise A := fun s => (Fulfilled a, s).

Definition throw {A : Type} (e : Thrown) : Promise A := fun s => (Rejected e, s).

Definition bind {A B : Type} (m : Promise A) (k : A -> Promise B) : Promise B :=
  fun s =>
    match m s with
    | (Fulfilled a, s') => k a s'
    | (Rejected e, s') => (Rejected e, s')
    end.

Notation "x <- m ;; k" := (bind m (fun x => k))
  (at level 61, m at next level, right associativity).
Notation "m ;;; k" := (bind m (fun _ => k))
  (at level 61, right associativity).

(** A promise that settles without touching the store. *)
Definition settle {A : Type} (r : Settled A) : Promise A := fun s => (r, s).

Definition NotInitialized : Thrown := Error "SQLite database not initialized"%string.
Definition NotFound : Thrown := Error "Task not found"%string.

Definition set_db (c : option SQLiteDBConnection) (s : DatabaseService) :=
  {| isWeb := isWeb s; db := c; localStorage := localStorage s;
     tasks_db := tasks_db s; log := log s |}.

Definition set_localStorage (v : option Item) (s : DatabaseService) :=
  {| isWeb := isWeb s; db := db s; localStorage := v;
     tasks_db := tasks_db s; log := log s |}.

Definition set_tasks_db (d : SQLite.Database) (s : DatabaseService) :=
  {| isWeb := isWeb s; db := db s; localStorage := localStorage s;
     tasks_db := d; log := log s |}.

Definition call (e : IO) (s : DatabaseService) :=
  {| isWeb := isWeb s; db := db s; localStorage := localStorage s;
     tasks_db := tasks_db s; log := e :: log s |}.

(** [new DatabaseService()] on a platform, over whatever the two media hold. *)
Definition new_DatabaseService (platform_is_web : bool) (stored : option Item)
    (file : SQLite.Database) : DatabaseService :=
  {| isWeb := platform_is_web; db := None; localStorage := stored;
     tasks_db := file; log := [] |}.

(** [initializeDatabase].  The browser branch is the source's.  The native
    branch is the run in which [createConnection], [open] and
    [CREATE TABLE IF NOT EXISTS] succeed, the last leaving an existing table
    alone; the runs in which one of them is rejected, and what the service
    does with a connection it could not open, are not modelled. *)
Definition initializeDatabase (w : World) : Promise unit :=
  fun s =>
    if isWeb s then
      if Storage_defined w then (Fulfilled tt, s)
      else (Rejected (Error "LocalStorage is not available"%string), s)
    else
      (Fulfilled tt, call db_execute (call db_open (set_db (Some (connection dbName)) s))).

(** [getStoredTasks]: [stored ? JSON.parse(stored) : []], and [[]] when
    [JSON.parse] throws. *)
Definition getStoredTasks (s : DatabaseService) : list ITask :=
  match localStorage s with
  | Some (TaskArray tasks) => tasks
  | Some Unparsable => []
  | None => []
  end.

Definition saveTasksToStorage (tasks : list ITask) : Promise unit :=
  fun s => (Fulfilled tt, call setItem (set_localStorage (Some (TaskArray tasks)) s)).

Definition generateId (w : World) : number :=
  JS.add (inject_Z (Date_now w)) (Math_random w).

(** [try { body } catch (error) { handler }] around what [body] awaits. *)
Definition try_catch {A : Type} (body : Settled A) (handler : Thrown -> Settled A)
    : Settled A :=
  match body with
  | Fulfilled v => Fulfilled v
  | Rejected e => handler e
  end.

(** An async function that returns a promise settles as that promise does. *)
Definition adopt {A : Type} (r : Settled (Settled A)) : Settled A :=
  match r with
  | Fulfilled p => p
  | Rejected e => Rejected e
  end.

(** [convertImageToBase64].  The [try] block awaits [fetch] and
    [response.blob()], so their rejections reach the [catch]; the promise
    around the FileReader is returned from the block without [await], so it
    settles outside the block. *)
Definition convertImageToBase64 (imagePath : string) (w : World) : Settled string :=
  adopt
    (try_catch
       (if negb (truthy imagePath) then Fulfilled (Fulfilled EmptyString)
        else if startsWith imagePath "data:" then Fulfilled (Fulfilled imagePath)
        else
          match fetch w imagePath with
          | fetch_rejects => Rejected (Error "Failed to fetch"%string)
          | blob_rejects => Rejected (Error "Failed to read the response body"%string)
          | blob read =>
            Fulfilled
              match read with
              | onload result => Fulfilled result
              | onerror => Rejected (ProgressEvent "error"%string)
              end
          end)
       (fun _ => Fulfilled (Fulfilled EmptyString))).

Definition addTask (task : ITask) (w : World) : Promise number :=
  fun s =>
    if isWeb s then
      (let tasks := getStoredTasks s in
       image_base64' <-
         match image_webview_path task with
         | Some path =>
           if truthy path then settle (convertImageToBase64 path w)
           else ret EmptyString
         | None => ret EmptyString
         end ;;
       let newTask :=
         {| id := Some (generateId w);
            text := text task;
            image_filepath := image_filepath task;
            image_webview_path := image_webview_path task;
            image_base64 := Some image_base64';
            completed := false;
            created_at := Some (ISO (new_Date w)) |} in
       saveTasksToStorage (newTask :: tasks) ;;;
       ret (generateId w)) s
    else
      match db s with
      | None => (Rejected NotInitialized, s)
      | Some _ =>
        let (lastId, file) :=
          SQLite.insert (text task) (image_filepath task)
            (or_empty (image_webview_path task)) (or_empty (image_base64 task))
            0 (CURRENT_TIMESTAMP w) (tasks_db s) in
        (Fulfilled (inject_Z (or_zero lastId)), call db_run (set_tasks_db file s))
      end.

(** The object [getAllTasks] builds from a row of the result set. *)
Definition of_row (row : SQLite.Row) : ITask :=
  {| id := Some (inject_Z (SQLite.row_id row));
     text := SQLite.row_text row;
     image_filepath := SQLite.row_image_filepath row;
     image_webview_path := Some (SQLite.row_image_webview_path row);
     image_base64 := Some (SQLite.row_image_base64 row);
     completed := Boolean (SQLite.row_completed row);
     created_at := Some (DATETIME (SQLite.row_created_at row)) |}.

(** [{ ...task, image_webview_path: task.image_base64 || task.image_webview_path }] *)
Definition resolve_image (task : ITask) : ITask :=
  {| id := id task;
     text := text task;
     image_filepath := image_filepath task;
     image_webview_path := or_else (image_base64 task) (image_webview_path task);
     image_base64 := image_base64 task;
     completed := completed task;
     created_at := created_at task |}.

Definition getAllTasks : Promise (list ITask) :=
  fun s =>
    if isWeb s then (Fulfilled (map resolve_image (getStoredTasks s)), s)
    else
      match db s with
      | None => (Rejected NotInitialized, s)
      | Some _ =>
        (Fulfilled (map of_row (SQLite.select_all (tasks_db s))), call db_query s)
      end.

Definition deleteTask (id' : number) : Promise unit :=
  fun s =>
    if isWeb s then
      (let tasks := getStoredTasks s in
       let filteredTasks := filter (fun task => negb (has_id id' task)) tasks in
       saveTasksToStorage filteredTasks) s
    else
      match db s with
      | None => (Rejected NotInitialized, s)
      | Some _ =>
        (Fulfilled tt,
         call db_run (set_tasks_db (SQLite.delete (SQLite.REAL id') (tasks_db s)) s))
      end.

(** The SET list [updateTask] builds on the native side: [fields] and the
    parameters pushed along with them. *)
Definition set_list (updates : Updates) : list SQLite.Column * list SQLite.Value :=
  let '(fields, values) := ([], []) in
  let '(fields, values) :=
    match upd_text updates with
    | Some v => (fields ++ [SQLite.col_text], values ++ [SQLite.TEXT v])
    | None => (fields, values)
    end in
  let '(fields, values) :=
    match upd_image_filepath updates with
    | Some v => (fields ++ [SQLite.col_image_filepath], values ++ [SQLite.TEXT v])
    | None => (fields, values)
    end in
  let '(fields, values) :=
    match upd_image_webview_path updates with
    | Some v => (fields ++ [SQLite.col_image_webview_path], values ++ [SQLite.TEXT v])
    | None => (fields, values)
    end in
  let '(fields, values) :=
    match upd_completed updates with
    | Some v =>
      (fields ++ [SQLite.col_completed],
       values ++ [SQLite.INTEGER (if v then 1 else 0)])
    | None => (fields, values)
    end in
  (fields, values).

Definition updateTask (id' : number) (updates : Updates) : Promise unit :=
  fun s =>
    if isWeb s then
      (let tasks := getStoredTasks s in
       match findIndex (has_id id') tasks with
       | None => throw NotFound
       | Some taskIndex =>
         saveTasksToStorage (modify tasks taskIndex (fun task => spread task updates))
       end) s
    else
      match db s with
      | None => (Rejected NotInitialized, s)
      | Some _ =>
        let '(fields, values) := set_list updates in
        match fields with
        | [] => (Fulfilled tt, s)
        | _ :: _ =>
          let values := values ++ [SQLite.REAL id'] in
          (Fulfilled tt,
           call db_run (set_tasks_db (SQLite.update fields values (tasks_db s)) s))
        end
      end.

(** [tasks[taskIndex].completed = !tasks[taskIndex].completed] *)
Definition flip_completed (task : ITask) : ITask :=
  {| id := id task;
     text := text task;
     image_filepath := image_filepath task;
     image_webview_path := image_webview_path task;
     image_base64 := image_base64 task;
     completed := negb (completed task);
     created_at := created_at task |}.

Definition toggleTaskCompletion (id' : number) : Promise unit :=
  fun s =>
    if isWeb s then
      (let tasks := getStoredTasks s in
       match findIndex (has_id id') tasks with
       | None => throw NotFound
       | Some taskIndex => saveTasksToStorage (modify tasks taskIndex flip_completed)
       end) s
    else
      match db s with
      | None => (Rejected NotInitialized, s)
      | Some _ =>
        (Fulfilled tt,
         call db_run (set_tasks_db (SQLite.toggle (SQLite.REAL id') (tasks_db s)) s))
      end.

Definition closeDatabase : Promise unit :=
  fun s =>
    if negb (isWeb s) then
      match db s with
      | Some _ => (Fulfilled tt, set_db None (call db_close s))
      | None => (Fulfilled tt, s)
      end
    else (Fulfilled tt, s).

Definition clearAllTasks : Promise unit :=
  fun s => (Fulfilled tt, call removeItem (set_localStorage None s)).

(** Awaiting one [addTask] after another; the ids they return. *)
Fixpoint addTasks (calls : list (ITask * World)) : Promise (list number) :=
  match calls with
  | [] => ret []
  | (task, w) :: rest =>
    i <- addTask task w ;;
    is' <- addTasks rest ;;
    ret (i :: is')
  end.

(** [closeDatabase] called [n] times in a row. *)
Fixpoint closeDatabase_times (n : nat) : Promise unit :=
  match n with
  | O => ret tt
  | S k => closeDatabase ;;; closeDatabase_times k
  end.

(** ** Store states the statements speak about *)

(** The service can serve a call: the browser backend always, the native one
    while it holds an open connection. *)
Definition ready (s : DatabaseService) : Prop :=
  isWeb s = true \/ db s <> None.

(** A record with identifier [id'] is in the store. *)
Definition present (id' : number) (s : DatabaseService) : bool :=
  if isWeb s then existsb (has_id id') (getStoredTasks s)
  else existsb (SQLite.id_is (SQLite.REAL id')) (SQLite.tasks (tasks_db s)).

(** The image step of [addTask] settles with a value for this call. *)
Definition encodes (c : ITask * World) : bool :=
  match image_webview_path (fst c) with
  | Some path =>
    if truthy path then
      match convertImageToBase64 path (snd c) with
      | Fulfilled _ => true
      | Rejected _ => false
      end
    else true
  | None => true
  end.

(** Newest first: no record is followed by one created later. *)
Definition not_older (a b : ITask) : Prop :=
  match created_at a, created_at b with
  | Some x, Some y => (instant y <= instant x)%Z
  | _, _ => False
  end.

Definition newest_first (l : list ITask) : Prop := StronglySorted not_older l.

(** Rows in descending [created_at], ties allowed. *)
Definition descending (rows : list SQLite.Row) : Prop :=
  StronglySorted
    (fun a b => (SQLite.row_created_at b <= SQLite.row_created_at a)%Z) rows.

(** ** Relations the statements use *)

(** The row change of the toggling UPDATE. *)
Definition toggled (key : SQLite.Value) (r : SQLite.Row) : SQLite.Row :=
  if SQLite.id_is key r
  then SQLite.set_column r
         (SQLite.col_completed, SQLite.INTEGER (SQLite.sql_not (SQLite.row_completed r)))
  else r.

(** What the browser backend stores for a call. *)
Definition stored_for (t : ITask) (c : ITask * World) : Prop :=
  id t = Some (generateId (snd c)) /\
  text t = text (fst c) /\
  completed t = false /\
  created_at t = Some (ISO (new_Date (snd c))).

(** What the native backend inserts for a call. *)
Definition inserted_for (r : SQLite.Row) (c : ITask * World) : Prop :=
  SQLite.row_text r = text (fst c) /\
  SQLite.row_completed r = 0%Z /\
  SQLite.row_created_at r = CURRENT_TIMESTAMP (snd c).

(** The clock read by [new Date()] never steps back from one call to a later one. *)
Definition clock_never_back (calls : list (ITask * World)) : Prop :=
  StronglySorted (fun c d => (new_Date (snd c) <= new_Date (snd d))%Z) calls.

(** Every call falls into a later second of SQLite's clock than the calls before it. *)
Definition seconds_apart (calls : list (ITask * World)) : Prop :=
  StronglySorted
    (fun c d => (CURRENT_TIMESTAMP (snd c) < CURRENT_TIMESTAMP (snd d))%Z) calls.

(** The texts of the tasks passed to a run of calls. *)
Definition texts (calls : list (ITask * World)) : list string :=
  map (fun c => text (fst c)) calls.

(** Ids returned by different calls differ. *)
Definition distinct (ids : list number) : Prop :=
  ForallOrdPairs (fun a b => strict_eq a b = false) ids.




(** ** Sample stores and calls *)

Definition empty_file : SQLite.Database :=
  {| SQLite.tasks := []; SQLite.sqlite_sequence := 0 |}.

(** A world in which the clocks read [ms] and [fetch] answers [r]. *)
Definition world (ms : Z) (r : Response) : World :=
  {| Storage_defined := true;
     Date_now := ms;
     Math_random := 1 # 4;
     new_Date := ms;
     fetch := fun _ => r;
     CURRENT_TIMESTAMP := (ms / 1000)%Z |}.

Definition noon : Z := 1700000000000.

(** A browser session over an empty localStorage. *)
Definition browser : DatabaseService :=
  new_DatabaseService true None empty_file.

(** A native session, initialized over an empty [tasks.db]. *)
Definition device : DatabaseService :=
  snd (initializeDatabase (world noon fetch_rejects)
         (new_DatabaseService false None empty_file)).

(** [{ text, image_filepath: '', completed }], as the page's form builds it. *)
Definition note (text' : string) (done : bool) : ITask :=
  {| id := None; text := text'; image_filepath := EmptyString;
     image_webview_path := None; image_base64 := None;
     completed := done; created_at := None |}.

(** A task with a photo under a transient display path. *)
Definition photo_note (text' path : string) : ITask :=
  {| id := None; text := text'; image_filepath := EmptyString;
     image_webview_path := Some path; image_base64 := None;
     completed := false; created_at := None |}.

Definition only_text (v : string) : Updates :=
  {| upd_text := Some v; upd_image_filepath := None;
     upd_image_webview_path := None; upd_image_base64 := None;
     upd_completed := None |}.


(** A world like [world ms r] with another draw of [Math.random]. *)
Definition world_drawing (ms : Z) (draw : number) : World :=
  {| Storage_defined := true;
     Date_now := ms;
     Math_random := draw;
     new_Date := ms;
     fetch := fun _ => fetch_rejects;
     CURRENT_TIMESTAMP := (ms / 1000)%Z |}.

(** Three notes added one millisecond apart. *)
Definition abc : list (ITask * World) :=
  [ (note "a" false, world noon fetch_rejects);
    (note "b" false, world (noon + 1) fetch_rejects);
    (note "c" false, world (noon + 2) fetch_rejects) ].

(** Three notes added one second apart. *)
Definition abc_seconds : list (ITask * World) :=
  [ (note "a" false, world noon fetch_rejects);
    (note "b" false, world (noon + 1000) fetch_rejects);
    (note "c" false, world (noon + 2000) fetch_rejects) ].

(** Two notes, the second added after the clock was set back five seconds. *)
Definition clock_set_back : list (ITask * World) :=
  [ (note "a" false, world noon fetch_rejects);
    (note "b" false, world (noon - 5000) fetch_rejects) ].

(** ** Runs of calls on the service *)

(** A call a page can make on an existing service.  [initializeDatabase] is
    left out of runs: it is made once, on the fresh service. *)
Inductive Request :=
| req_addTask (task : ITask) (w : World)
| req_getAllTasks
| req_deleteTask (id' : number)
| req_updateTask (id' : number) (updates : Updates)
| req_toggleTaskCompletion (id' : number)
| req_closeDatabase
| req_clearAllTasks.

(** The state a call leaves behind, whether it resolved or was rejected. *)
Definition perform (r : Request) (s : DatabaseService) : DatabaseService :=
  match r with
  | req_addTask task w => snd (addTask task w s)
  | req_getAllTasks => snd (getAllTasks s)
  | req_deleteTask id' => snd (deleteTask id' s)
  | req_updateTask id' updates => snd (updateTask id' updates s)
  | req_toggleTaskCompletion id' => snd (toggleTaskCompletion id' s)
  | req_closeDatabase => snd (closeDatabase s)
  | req_clearAllTasks => snd (clearAllTasks s)
  end.

(** One call awaited after the other. *)
Definition run (rs : list Request) (s : DatabaseService) : DatabaseService :=
  fold_left (fun s' r => perform r s') rs s.

Definition is_clearAllTasks (r : Request) : bool :=
  match r with
  | req_clearAllTasks => true
  | _ => false
  end.

(** The rowids of the table grow with the position, and none is above the
    AUTOINCREMENT counter. *)
Definition table_ok (d : SQLite.Database) : Prop :=
  StronglySorted Z.lt (map SQLite.row_id (SQLite.tasks d)) /\
  Forall (fun r => (SQLite.row_id r <= SQLite.sqlite_sequence d)%Z) (SQLite.tasks d).


(** Two records that differ in [completed] at most. *)
Definition same_but_completed (t t' : ITask) : Prop :=
  id t' = id t /\ text t' = text t /\ image_filepath t' = image_filepath t /\
  image_webview_path t' = image_webview_path t /\
  image_base64 t' = image_base64 t /\ created_at t' = created_at t.

(** ** The page [Tab1] *)

(** A character of a [string] stands for a UTF-16 code unit below 256; these
    are the ones among them that [String.prototype.trim] strips. *)
Definition is_white_space (c : ascii) : bool :=
  match N_of_ascii c with
  | 9%N | 10%N | 11%N | 12%N | 13%N | 32%N | 160%N => true
  | _ => false
  end.

Fixpoint trimStart (s : string) : string :=
  match s with
  | EmptyString => EmptyString
  | String c rest => if is_white_space c then trimStart rest else s
  end.

Definition trimEnd (s : string) : string :=
  string_of_list_ascii
    (rev (list_ascii_of_string
            (trimStart (string_of_list_ascii (rev (list_ascii_of_string s)))))).

(** [s.trim()] *)
Definition trim (s : string) : string := trimEnd (trimStart s).

(** A string of white space only, the empty string among them. *)
Definition blank (s : string) : bool :=
  forallb is_white_space (list_ascii_of_string s).

(** Truthiness of a number that may be undefined. *)
Definition truthy_number (o : option number) : bool :=
  match o with
  | Some n => negb (Qeq_bool n 0)
  | None => false
  end.

Module Tab1.

Record DeleteAlert := {
  alert_isOpen : bool;
  taskId : option number
}.

(** The [useState] cells of the component. *)
Record State := {
  tasks : list ITask;
  newTask : ITask;
  isOpen : bool;
  isLoading : bool;
  filterSegment : string;
  deleteAlert : DeleteAlert
}.

Definition DEFAULT_VALUES : ITask :=
  {| id := None; text := EmptyString; image_filepath := EmptyString;
     image_webview_path := Some EmptyString; image_base64 := None;
     completed := false; created_at := None |}.

(** The component as first rendered. *)
Definition initial : State :=
  {| tasks := []; newTask := DEFAULT_VALUES; isOpen := false; isLoading := true;
     filterSegment := "all";
     deleteAlert := {| alert_isOpen := false; taskId := None |} |}.

Definition setTasks (v : list ITask) (p : State) : State :=
  {| tasks := v; newTask := newTask p; isOpen := isOpen p; isLoading := isLoading p;
     filterSegment := filterSegment p; deleteAlert := deleteAlert p |}.

Definition setNewTask (v : ITask) (p : State) : State :=
  {| tasks := tasks p; newTask := v; isOpen := isOpen p; isLoading := isLoading p;
     filterSegment := filterSegment p; deleteAlert := deleteAlert p |}.

Definition setIsOpen (v : bool) (p : State) : State :=
  {| tasks := tasks p; newTask := newTask p; isOpen := v; isLoading := isLoading p;
     filterSegment := filterSegment p; deleteAlert := deleteAlert p |}.

Definition setIsLoading (v : bool) (p : State) : State :=
  {| tasks := tasks p; newTask := newTask p; isOpen := isOpen p; isLoading := v;
     filterSegment := filterSegment p; deleteAlert := deleteAlert p |}.

Definition setFilterSegment (v : string) (p : State) : State :=
  {| tasks := tasks p; newTask := newTask p; isOpen := isOpen p;
     isLoading := isLoading p; filterSegment := v; deleteAlert := deleteAlert p |}.

Definition setDeleteAlert (v : DeleteAlert) (p : State) : State :=
  {| tasks := tasks p; newTask := newTask p; isOpen := isOpen p;
     isLoading := isLoading p; filterSegment := filterSegment p; deleteAlert := v |}.

(** A handler runs on the component's cells and the shared service, one
    handler after the other; its own [try]/[catch] logs what the service
    throws, so it always completes. *)
Definition Handler : Type := State * DatabaseService -> State * DatabaseService.

Definition loadTasks : Handler :=
  fun '(p, s) =>
    match getAllTasks s with
    | (Fulfilled allTasks, s') => (setTasks allTasks p, s')
    | (Rejected _, s') => (p, s')
    end.

Definition initializeApp (w : World) : Handler :=
  fun '(p, s) =>
    let p := setIsLoading true p in
    match initializeDatabase w s with
    | (Fulfilled _, s') =>
      let '(p', s'') := loadTasks (p, s') in (setIsLoading false p', s'')
    | (Rejected _, s') => (setIsLoading false p, s')
    end.

(** The object [addTask] builds from the form. *)
Definition taskToAdd (p : State) : ITask :=
  {| id := None;
     text := text (newTask p);
     image_filepath := image_filepath (newTask p);
     image_webview_path := image_webview_path (newTask p);
     image_base64 := None;
     completed := false;
     created_at := None |}.

(** The page's [addTask]; the call inside is the service's [addTask]. *)
Definition addTask (w : World) : Handler :=
  fun '(p, s) =>
    if truthy (trim (text (newTask p))) then
      match addTask (taskToAdd p) w s with
      | (Fulfilled _, s') =>
        loadTasks (setIsOpen false (setNewTask DEFAULT_VALUES p), s')
      | (Rejected _, s') => (p, s')
      end
    else (p, s).

(** The page's [deleteTask]; the call inside is the service's. *)
Definition deleteTask (taskId' : number) : Handler :=
  fun '(p, s) =>
    match deleteTask taskId' s with
    | (Fulfilled _, s') =>
      let '(p', s'') := loadTasks (p, s') in
      (setDeleteAlert {| alert_isOpen := false; taskId := None |} p', s'')
    | (Rejected _, s') => (p, s')
    end.

(** The page's [toggleTaskCompletion]; the call inside is the service's. *)
Definition toggleTaskCompletion (taskId' : number) : Handler :=
  fun '(p, s) =>
    match toggleTaskCompletion taskId' s with
    | (Fulfilled _, s') => loadTasks (p, s')
    | (Rejected _, s') => (p, s')
    end.

Definition getFilteredTasks (p : State) : list ITask :=
  if String.eqb (filterSegment p) "active" then
    filter (fun task => negb (completed task)) (tasks p)
  else if String.eqb (filterSegment p) "completed" then
    filter (fun task => completed task) (tasks p)
  else tasks p.

(** The Delete button of the alert:
    [if (deleteAlert.taskId) deleteTask(deleteAlert.taskId)]. *)
Definition alert_Delete : Handler :=
  fun '(p, s) =>
    match taskId (deleteAlert p) with
    | Some n => if truthy_number (Some n) then deleteTask n (p, s) else (p, s)
    | None => (p, s)
    end.

(** The checkbox of a listed task:
    [task.id && toggleTaskCompletion(task.id)]. *)
Definition checkbox_onIonChange (task : ITask) : Handler :=
  fun '(p, s) =>
    match id task with
    | Some n => if truthy_number (Some n) then toggleTaskCompletion n (p, s) else (p, s)
    | None => (p, s)
    end.

End Tab1.

(** What the page lists is what the service returns. *)
Definition in_sync (p : Tab1.State) (s : DatabaseService) : Prop :=
  fst (getAllTasks s) = Fulfilled (Tab1.tasks p).

(** * Properties *)

(** ** Looking a record up *)

Lemma findIndex_None_existsb {A : Type} (p : A -> bool) (l : list A) :
  findIndex p l = None <-> existsb p l = false.
Proof.
  induction l as [|x r IH]; simpl.
  - tauto.
  - destruct (p x); simpl.
    + split; discriminate.
    + destruct (findIndex p r); simpl.
      * split; [discriminate | intros H; apply IH in H; discriminate].
      * split; [intros _; apply IH; reflexivity | reflexivity].
Qed.

Lemma findIndex_Some_nth {A : Type} (p : A -> bool) (l : list A) (k : nat) :
  findIndex p l = Some k ->
  exists x, nth_error l k = Some x /\ p x = true.
Proof.
  revert k; induction l as [|x r IH]; simpl; intros k H.
  - discriminate.
  - destruct (p x) eqn:E.
    + injection H as <-. exists x. split; [reflexivity | assumption].
    + destruct (findIndex p r) as [j|]; simpl in H; [|discriminate].
      injection H as <-. destruct (IH j eq_refl) as (y & Hy & Hp).
      exists y. split; assumption.
Qed.

(** ** NotFound *)

(** On the browser backend an identifier that is not stored makes
    [updateTask] and [toggleTaskCompletion] throw 'Task not found', whatever
    the update holds, and nothing is written. *)
Lemma browser_absent_NotFound (s : DatabaseService) (id' : number) (u : Updates) :
  isWeb s = true -> present id' s = false ->
  updateTask id' u s = (Rejected NotFound, s) /\
  toggleTaskCompletion id' s = (Rejected NotFound, s).
Proof.
  intros Hweb Habs. unfold present in Habs. rewrite Hweb in Habs.
  apply findIndex_None_existsb in Habs.
  unfold updateTask, toggleTaskCompletion. rewrite Hweb, Habs. split; reflexivity.
Qed.

(** On the native backend both operations run their UPDATE and resolve,
    whether or not a row matches. *)
Lemma native_update_toggle_resolves (s : DatabaseService) (id' : number) (u : Updates) :
  isWeb s = false -> db s <> None ->
  fst (updateTask id' u s) = Fulfilled tt /\
  fst (toggleTaskCompletion id' s) = Fulfilled tt.
Proof.
  intros Hnat Hdb. unfold updateTask, toggleTaskCompletion. rewrite Hnat.
  destruct (db s) as [c|]; [|congruence].
  destruct (set_list u) as [fields values]. destruct fields; split; reflexivity.
Qed.

(** C1: an identifier absent from the store makes [updateTask] with a
    non-empty update and [toggleTaskCompletion] fail with NotFound on both
    backends.  The native backend does not: on an initialized, empty
    [tasks.db], [updateTask(999, {text: "x"})] and
    [toggleTaskCompletion(999)] both resolve, and the table stays empty. *)
Theorem native_absent_id_resolves :
  present 999 device = false /\
  fst (updateTask 999 (only_text "x") device) = Fulfilled tt /\
  fst (toggleTaskCompletion 999 device) = Fulfilled tt /\
  SQLite.tasks (tasks_db (snd (updateTask 999 (only_text "x") device))) = [] /\
  SQLite.tasks (tasks_db (snd (toggleTaskCompletion 999 device))) = [].
Proof. repeat split; reflexivity. Qed.

(** ** The image step of [addTask] *)

Lemma convertImageToBase64_caught (path : string) (w : World) :
  fetch w path = fetch_rejects \/ fetch w path = blob_rejects ->
  startsWith path "data:" = false ->
  convertImageToBase64 path w = Fulfilled EmptyString.
Proof.
  intros H Hd. unfold convertImageToBase64. rewrite Hd.
  destruct (truthy path); simpl; [|reflexivity].
  destruct H as [-> | ->]; reflexivity.
Qed.

(** When [fetch] or [response.blob()] rejects, the browser backend still
    stores the task, with an empty [image_base64], and returns its id. *)
Lemma addTask_unreachable_image (s : DatabaseService) (task : ITask) (w : World)
    (path : string) :
  isWeb s = true ->
  image_webview_path task = Some path ->
  startsWith path "data:" = false ->
  fetch w path = fetch_rejects \/ fetch w path = blob_rejects ->
  exists s' t,
    addTask task w s = (Fulfilled (generateId w), s') /\
    getStoredTasks s' = t :: getStoredTasks s /\
    id t = Some (generateId w) /\
    text t = text task /\
    image_base64 t = Some EmptyString.
Proof.
  intros Hweb Hp Hd Hf. unfold addTask. rewrite Hweb, Hp.
  unfold bind, settle, ret, saveTasksToStorage.
  destruct (truthy path) eqn:Ht.
  - rewrite (convertImageToBase64_caught path w Hf Hd).
    eexists. eexists. split; [reflexivity|]. simpl. repeat split.
  - eexists. eexists. split; [reflexivity|]. simpl. repeat split.
Qed.

(** C2: on the browser backend a task whose image cannot be inline-encoded is
    still stored, with an empty inline image, and [addTask] returns its id.
    When the image is fetched but the FileReader reports an error, [addTask]
    rejects with the reader's event and writes nothing. *)
Theorem addTask_rejects_on_reader_error :
  addTask (photo_note "buy milk" "blob:http://localhost/1f0c")
          (world noon (blob onerror)) browser
  = (Rejected (ProgressEvent "error"), browser).
Proof. reflexivity. Qed.

(** ** After [closeDatabase] *)

Lemma closeDatabase_times_resolves (n : nat) (s : DatabaseService) :
  fst (closeDatabase_times n s) = Fulfilled tt.
Proof.
  revert s; induction n as [|n IH]; intros s; simpl.
  - reflexivity.
  - unfold bind, closeDatabase.
    destruct (negb (isWeb s)); [destruct (db s)|]; apply IH.
Qed.

Lemma closeDatabase_times_browser (n : nat) (s : DatabaseService) :
  isWeb s = true -> closeDatabase_times n s = (Fulfilled tt, s).
Proof.
  intros Hweb; induction n as [|n IH]; simpl.
  - reflexivity.
  - unfold bind, closeDatabase. rewrite Hweb. simpl. exact IH.
Qed.

Lemma closeDatabase_times_native (n : nat) (s : DatabaseService) :
  isWeb s = false ->
  isWeb (snd (closeDatabase_times (S n) s)) = false /\
  db (snd (closeDatabase_times (S n) s)) = None.
Proof.
  revert s; induction n as [|n IH]; intros s Hnat.
  - simpl. unfold bind, closeDatabase, ret. rewrite Hnat. simpl.
    destruct (db s) eqn:E; simpl; auto.
  - change (closeDatabase_times (S (S n)) s)
      with (bind closeDatabase (fun _ => closeDatabase_times (S n)) s).
    unfold bind at 1 2. unfold closeDatabase at 1 2. rewrite Hnat. simpl negb. cbv iota.
    destruct (db s); apply IH; simpl; assumption.
Qed.

(** C3, as stated, fails on the browser backend: [closeDatabase] only logs
    there, and a session that was closed twice goes on serving every call. *)
Lemma browser_serves_after_close :
  let s := snd (closeDatabase_times 2 browser) in
  let w := world noon fetch_rejects in
  fst (addTask (note "a" false) w s) = Fulfilled (generateId w) /\
  fst (getAllTasks s) = Fulfilled [] /\
  fst (deleteTask 7 s) = Fulfilled tt /\
  fst (updateTask 7 (only_text "x") s) = Rejected NotFound /\
  fst (toggleTaskCompletion 7 s) = Rejected NotFound /\
  NotFound <> NotInitialized.
Proof. repeat split; try reflexivity. discriminate. Qed.

(** C3 (amended): [closeDatabase] resolves however often it is called.  On
    the native backend, once it has been called, [addTask], [getAllTasks],
    [deleteTask], [updateTask] and [toggleTaskCompletion] are each rejected
    with 'SQLite database not initialized' and leave the store as it is; on
    the browser backend [closeDatabase] changes nothing. *)
Theorem closed_session (s : DatabaseService) (n : nat) :
  (isWeb s = false ->
   exists s',
     closeDatabase_times (S n) s = (Fulfilled tt, s') /\
     (forall task w, addTask task w s' = (Rejected NotInitialized, s')) /\
     getAllTasks s' = (Rejected NotInitialized, s') /\
     (forall i, deleteTask i s' = (Rejected NotInitialized, s')) /\
     (forall i u, updateTask i u s' = (Rejected NotInitialized, s')) /\
     (forall i, toggleTaskCompletion i s' = (Rejected NotInitialized, s'))) /\
  (isWeb s = true -> closeDatabase_times (S n) s = (Fulfilled tt, s)).
Proof.
  split.
  - intros Hnat.
    destruct (closeDatabase_times_native n s Hnat) as [Hw Hdb].
    pose proof (closeDatabase_times_resolves (S n) s) as Hr.
    destruct (closeDatabase_times (S n) s) as [r s'] eqn:E.
    simpl in Hw, Hdb, Hr. subst r. exists s'. split; [reflexivity|].
    unfold addTask, getAllTasks, deleteTask, updateTask, toggleTaskCompletion.
    rewrite Hw, Hdb. repeat split; reflexivity.
  - apply closeDatabase_times_browser.
Qed.

Lemma closed_session_witness :
  (exists s',
     closeDatabase_times 2 device = (Fulfilled tt, s') /\
     (forall task w, addTask task w s' = (Rejected NotInitialized, s')) /\
     getAllTasks s' = (Rejected NotInitialized, s') /\
     (forall i, deleteTask i s' = (Rejected NotInitialized, s')) /\
     (forall i u, updateTask i u s' = (Rejected NotInitialized, s')) /\
     (forall i, toggleTaskCompletion i s' = (Rejected NotInitialized, s'))) /\
  closeDatabase_times 2 browser = (Fulfilled tt, browser).
Proof.
  split.
  - apply (proj1 (closed_session device 1)). reflexivity.
  - apply (proj2 (closed_session browser 1)). reflexivity.
Defined.

(** ** [clearAllTasks] *)

(** On the browser backend nothing is left to read after [clearAllTasks]. *)
Lemma clearAllTasks_browser (s : DatabaseService) :
  isWeb s = true ->
  fst ((clearAllTasks ;;; getAllTasks) s) = Fulfilled [].
Proof.
  intros Hweb. unfold bind, clearAllTasks, getAllTasks. simpl. rewrite Hweb.
  reflexivity.
Qed.

(** [clearAllTasks] never touches [tasks.db]. *)
Lemma clearAllTasks_keeps_table (s : DatabaseService) :
  tasks_db (snd (clearAllTasks s)) = tasks_db s /\
  db (snd (clearAllTasks s)) = db s.
Proof. split; reflexivity. Qed.

(** C4: [clearAllTasks] empties the store on either backend.  On the native
    backend it removes the localStorage item only: a task added to an
    initialized, empty [tasks.db] is still returned by the [getAllTasks] that
    follows [clearAllTasks]. *)
Theorem clearAllTasks_native_keeps_rows :
  fst ((addTask (note "a" false) (world noon fetch_rejects) ;;;
        clearAllTasks ;;;
        getAllTasks) device)
  = Fulfilled
      [ {| id := Some 1%Q; text := "a"; image_filepath := EmptyString;
           image_webview_path := Some EmptyString;
           image_base64 := Some EmptyString;
           completed := false;
           created_at := Some (DATETIME 1700000000) |} ].
Proof. reflexivity. Qed.

(** ** The result order of the SELECT *)

Section OrderBy.

Import SQLite.

Lemma Forall_place (P : Row -> Prop) (r : Row) (l : list Row) :
  P r -> Forall P l -> Forall P (place r l).
Proof.
  intros Hr Hl; induction Hl as [|y l Hy Hl IH]; simpl.
  - constructor; [assumption | constructor].
  - destruct (row_created_at r <? row_created_at y)%Z; constructor; auto.
Qed.

Lemma place_descending (r : Row) (l : list Row) :
  descending l -> descending (place r l).
Proof.
  unfold descending. intros Hl; induction Hl as [|y l Hl IH Hy]; simpl.
  - constructor; constructor.
  - destruct (Z.ltb_spec (row_created_at r) (row_created_at y)) as [Hlt | Hge].
    + constructor; [assumption|]. apply Forall_place; [lia | assumption].
    + constructor; [constructor; assumption|].
      constructor; [assumption|].
      eapply Forall_impl; [|exact Hy]. simpl. intros a Ha. lia.
Qed.

Lemma order_by_descending (rows : list Row) :
  descending (order_by_created_at_desc rows).
Proof.
  induction rows as [|r rows IH]; simpl.
  - constructor.
  - apply place_descending, IH.
Qed.

Lemma length_place (r : Row) (l : list Row) :
  List.length (place r l) = S (List.length l).
Proof.
  induction l as [|y l IH]; simpl; [reflexivity|].
  destruct (row_created_at r <? row_created_at y)%Z; simpl; congruence.
Qed.

Lemma length_order_by (rows : list Row) :
  List.length (order_by_created_at_desc rows) = List.length rows.
Proof.
  induction rows as [|r rows IH]; simpl; [reflexivity|].
  rewrite length_place; congruence.
Qed.

Lemma existsb_place (p : Row -> bool) (r : Row) (l : list Row) :
  existsb p (place r l) = p r || existsb p l.
Proof.
  induction l as [|y l IH]; simpl; [reflexivity|].
  destruct (row_created_at r <? row_created_at y)%Z; simpl; [|reflexivity].
  rewrite IH. destruct (p y), (p r); reflexivity.
Qed.

Lemma existsb_order_by (p : Row -> bool) (rows : list Row) :
  existsb p (order_by_created_at_desc rows) = existsb p rows.
Proof.
  induction rows as [|r rows IH]; simpl; [reflexivity|].
  rewrite existsb_place; congruence.
Qed.

(** A change of the rows that keeps [created_at] commutes with the sort. *)
Lemma place_map (f : Row -> Row) (r : Row) (l : list Row) :
  (forall x, row_created_at (f x) = row_created_at x) ->
  place (f r) (map f l) = map f (place r l).
Proof.
  intros Hf; induction l as [|y l IH]; simpl; [reflexivity|].
  rewrite !Hf. destruct (row_created_at r <? row_created_at y)%Z; simpl; congruence.
Qed.

Lemma order_by_map (f : Row -> Row) (rows : list Row) :
  (forall x, row_created_at (f x) = row_created_at x) ->
  order_by_created_at_desc (map f rows) = map f (order_by_created_at_desc rows).
Proof.
  intros Hf; induction rows as [|r rows IH]; simpl; [reflexivity|].
  rewrite IH. apply place_map, Hf.
Qed.

(** Placing a row into a sorted list that holds [r] moves nothing across [r]
    but, possibly, the new row. *)
Lemma place_around (x r : Row) (a b : list Row) :
  descending (a ++ r :: b) ->
  exists a' b',
    place x (a ++ r :: b) = a' ++ r :: b' /\ place x (a ++ b) = a' ++ b'.
Proof.
  unfold descending. induction a as [|z a IH]; simpl; intros Hs.
  - destruct (Z.ltb_spec (row_created_at x) (row_created_at r)) as [Hlt | Hge].
    + exists [], (place x b). split; reflexivity.
    + exists [x], b. split; [reflexivity|].
      destruct b as [|y b]; simpl; [reflexivity|].
      inversion Hs as [|? ? _ Hall]; subst. inversion Hall; subst.
      destruct (Z.ltb_spec (row_created_at x) (row_created_at y)); [lia | reflexivity].
  - inversion Hs as [|? ? Htl _]; subst.
    destruct (row_created_at x <? row_created_at z)%Z.
    + destruct (IH Htl) as (a' & b' & E1 & E2).
      exists (z :: a'), b'. simpl. rewrite E1, E2. split; reflexivity.
    + exists (x :: z :: a), b. split; reflexivity.
Qed.

(** The row inserted last shows up somewhere in the result; the rows around
    it are the result without it. *)
Lemma order_by_snoc (rows : list Row) (r : Row) :
  exists a b,
    order_by_created_at_desc (rows ++ [r]) = a ++ r :: b /\
    order_by_created_at_desc rows = a ++ b.
Proof.
  induction rows as [|x rows IH]; simpl.
  - exists [], []. split; reflexivity.
  - destruct IH as (a & b & E1 & E2). rewrite E1, E2.
    apply place_around. rewrite <- E1. apply order_by_descending.
Qed.

(** Rows whose timestamps strictly increase with the rowid come out reversed. *)
Lemma place_last (r : Row) (l : list Row) :
  Forall (fun y => (row_created_at r < row_created_at y)%Z) l ->
  place r l = l ++ [r].
Proof.
  intros H; induction H as [|y l Hy Hl IH]; simpl; [reflexivity|].
  destruct (Z.ltb_spec (row_created_at r) (row_created_at y)); [|lia].
  rewrite IH; reflexivity.
Qed.

Lemma order_by_increasing (rows : list Row) :
  StronglySorted (fun a b => (row_created_at a < row_created_at b)%Z) rows ->
  order_by_created_at_desc rows = rev rows.
Proof.
  intros H; induction H as [|r rows Hs IH Hr]; simpl; [reflexivity|].
  rewrite IH. apply place_last.
  apply Forall_forall. intros y Hy. apply in_rev in Hy.
  rewrite Forall_forall in Hr. apply Hr, Hy.
Qed.

End OrderBy.

(** ** [deleteTask] *)

Lemma existsb_filter_negb {A : Type} (p : A -> bool) (l : list A) :
  existsb p (filter (fun x => negb (p x)) l) = false.
Proof.
  induction l as [|x l IH]; simpl; [reflexivity|].
  destruct (p x) eqn:E; simpl; [|rewrite E]; exact IH.
Qed.

Lemma filter_negb_absent {A : Type} (p : A -> bool) (l : list A) :
  existsb p l = false -> filter (fun x => negb (p x)) l = l.
Proof.
  induction l as [|x l IH]; simpl; [reflexivity|].
  destruct (p x); simpl; [discriminate|]. intros H. rewrite IH; auto.
Qed.

Lemma existsb_map {A B : Type} (p : B -> bool) (f : A -> B) (l : list A) :
  existsb p (map f l) = existsb (fun x => p (f x)) l.
Proof.
  induction l as [|x l IH]; simpl; congruence.
Qed.

Lemma has_id_resolve_image (i : number) (t : ITask) :
  has_id i (resolve_image t) = has_id i t.
Proof. reflexivity. Qed.

Lemma has_id_of_row (i : number) (r : SQLite.Row) :
  has_id i (of_row r) = SQLite.id_is (SQLite.REAL i) r.
Proof. reflexivity. Qed.

(** What [getAllTasks] returns holds a record with identifier [i] exactly
    when the store does. *)
Lemma getAllTasks_present (s : DatabaseService) (i : number) (l : list ITask) :
  fst (getAllTasks s) = Fulfilled l -> existsb (has_id i) l = present i s.
Proof.
  unfold getAllTasks, present. destruct (isWeb s).
  - simpl. intros [= <-]. rewrite existsb_map. reflexivity.
  - destruct (db s); simpl; [|discriminate]. intros [= <-].
    rewrite existsb_map. unfold SQLite.select_all.
    rewrite <- (existsb_order_by _ (SQLite.tasks (tasks_db s))). reflexivity.
Qed.

Lemma getAllTasks_ready (s : DatabaseService) :
  ready s -> exists l, fst (getAllTasks s) = Fulfilled l.
Proof.
  unfold ready, getAllTasks. intros [Hweb | Hdb].
  - rewrite Hweb. eexists; reflexivity.
  - destruct (isWeb s); [eexists; reflexivity|].
    destruct (db s); [eexists; reflexivity | congruence].
Qed.

(** C8: [deleteTask] resolves for every identifier; afterwards
    [getAllTasks] holds no record with that identifier; when the identifier
    was absent the stored records are what they were; a second [deleteTask]
    with the same identifier resolves too. *)
Theorem deleteTask_idempotent (s : DatabaseService) (id' : number) :
  ready s ->
  exists s',
    deleteTask id' s = (Fulfilled tt, s') /\
    (exists l, fst (getAllTasks s') = Fulfilled l /\ existsb (has_id id') l = false) /\
    (present id' s = false ->
       getStoredTasks s' = getStoredTasks s /\
       tasks_db s' = tasks_db s /\
       fst (getAllTasks s') = fst (getAllTasks s)) /\
    (exists s'', deleteTask id' s' = (Fulfilled tt, s'')).
Proof.
  intros Hready.
  assert (Hstep : forall s0, ready s0 ->
            exists s1, deleteTask id' s0 = (Fulfilled tt, s1) /\ ready s1 /\
                       present id' s1 = false /\
                       (present id' s0 = false ->
                          getStoredTasks s1 = getStoredTasks s0 /\
                          tasks_db s1 = tasks_db s0)).
  { intros s0 H0. unfold deleteTask, present, ready in *. destruct (isWeb s0) eqn:Hweb.
    - eexists. split; [reflexivity|]. simpl. rewrite Hweb. repeat split.
      + left; reflexivity.
      + apply existsb_filter_negb.
      + apply filter_negb_absent; assumption.
    - destruct H0 as [H0 | H0]; [discriminate|].
      destruct (db s0) as [c|] eqn:Hc; [|congruence].
      eexists. split; [reflexivity|]. simpl. rewrite Hweb, Hc. repeat split.
      + right; discriminate.
      + apply existsb_filter_negb.
      + destruct (tasks_db s0) as [rows sq]. unfold SQLite.delete. simpl in *.
        rewrite filter_negb_absent; auto. }
  destruct (Hstep s Hready) as (s' & E & Hready' & Habs & Hsame).
  exists s'. split; [exact E|]. split; [|split].
  - destruct (getAllTasks_ready s' Hready') as [l Hl]. exists l. split; [exact Hl|].
    rewrite (getAllTasks_present s' id' l Hl). exact Habs.
  - intros Hno. destruct (Hsame Hno) as [Hs Ht]. split; [exact Hs|]. split; [exact Ht|].
    assert (Hw : isWeb s' = isWeb s /\ db s' = db s).
    { unfold deleteTask in E. destruct (isWeb s) eqn:Hweb.
      - injection E as <-. simpl. auto.
      - destruct (db s) eqn:Hc; [injection E as <-; simpl; auto | discriminate]. }
    destruct Hw as [Hw Hd]. unfold getAllTasks. rewrite Hw, Hd, Hs, Ht.
    destruct (isWeb s); [reflexivity|]. destruct (db s); reflexivity.
  - destruct (Hstep s' Hready') as (s'' & E' & _). exists s''. exact E'.
Qed.

Lemma deleteTask_idempotent_witness :
  let s := snd (addTask (note "a" false) (world noon fetch_rejects) device) in
  ready s /\
  exists s',
    deleteTask 1 s = (Fulfilled tt, s') /\
    (exists l, fst (getAllTasks s') = Fulfilled l /\ existsb (has_id 1) l = false) /\
    (exists s'', deleteTask 1 s' = (Fulfilled tt, s'')).
Proof.
  intros s.
  assert (H : ready s) by (right; discriminate).
  split; [exact H|].
  destruct (deleteTask_idempotent s 1 H) as (s' & E & Hl & _ & H2).
  exists s'. split; [exact E|]. split; [exact Hl | exact H2].
Defined.

(** ** [toggleTaskCompletion] *)

Lemma findIndex_modify {A : Type} (p : A -> bool) (f : A -> A) (l : list A) (k : nat) :
  (forall x, p (f x) = p x) ->
  findIndex p l = Some k ->
  findIndex p (modify l k f) = Some k.
Proof.
  intros Hf. revert k; induction l as [|x l IH]; simpl; intros k H; [discriminate|].
  destruct (p x) eqn:E.
  - injection H as <-. simpl. rewrite Hf, E. reflexivity.
  - destruct (findIndex p l) as [j|]; simpl in H; [|discriminate].
    injection H as <-. simpl. rewrite E, (IH j eq_refl). reflexivity.
Qed.

Lemma modify_modify {A : Type} (f g : A -> A) (l : list A) (k : nat) :
  modify (modify l k f) k g = modify l k (fun x => g (f x)).
Proof.
  revert k; induction l as [|x l IH]; intros [|k]; simpl; try reflexivity.
  rewrite IH; reflexivity.
Qed.

Lemma modify_same {A : Type} (f : A -> A) (l : list A) (k : nat) :
  (forall x, f x = x) -> modify l k f = l.
Proof.
  intros Hf. revert k; induction l as [|x l IH]; intros [|k]; simpl; try reflexivity.
  - rewrite Hf; reflexivity.
  - rewrite IH; reflexivity.
Qed.

Lemma nth_error_modify {A : Type} (f : A -> A) (l : list A) (k j : nat) :
  nth_error (modify l k f) j =
  if Nat.eqb j k then option_map f (nth_error l j) else nth_error l j.
Proof.
  revert k j; induction l as [|x l IH]; intros [|k] [|j]; simpl; try reflexivity.
  - destruct (Nat.eqb j k), j; reflexivity.
  - apply IH.
Qed.


Lemma flip_completed_twice (t : ITask) : flip_completed (flip_completed t) = t.
Proof. destruct t; unfold flip_completed; simpl. rewrite negb_involutive. reflexivity. Qed.

Lemma Boolean_sql_not (n : Z) : Boolean (SQLite.sql_not n) = negb (Boolean n).
Proof. unfold Boolean, SQLite.sql_not. destruct (n =? 0)%Z; reflexivity. Qed.

Lemma toggled_created_at (key : SQLite.Value) (r : SQLite.Row) :
  SQLite.row_created_at (toggled key r) = SQLite.row_created_at r.
Proof. unfold toggled. destruct (SQLite.id_is key r); reflexivity. Qed.

Lemma of_row_toggled (i : number) (r : SQLite.Row) :
  of_row (toggled (SQLite.REAL i) r) =
  if has_id i (of_row r) then flip_completed (of_row r) else of_row r.
Proof.
  rewrite has_id_of_row. unfold toggled.
  destruct (SQLite.id_is (SQLite.REAL i) r); [|reflexivity].
  unfold of_row, flip_completed; simpl. rewrite Boolean_sql_not. reflexivity.
Qed.

Lemma of_row_toggled_twice (key : SQLite.Value) (r : SQLite.Row) :
  of_row (toggled key (toggled key r)) = of_row r.
Proof.
  unfold toggled. destruct (SQLite.id_is key r) eqn:E; [|rewrite E; reflexivity].
  assert (E' : SQLite.id_is key
                 (SQLite.set_column r
                    (SQLite.col_completed,
                     SQLite.INTEGER (SQLite.sql_not (SQLite.row_completed r)))) = true)
    by (destruct key; exact E).
  rewrite E'. unfold of_row; simpl. rewrite !Boolean_sql_not, negb_involutive.
  reflexivity.
Qed.

Lemma id_is_toggled (key : SQLite.Value) (r : SQLite.Row) :
  SQLite.id_is key (toggled key r) = SQLite.id_is key r.
Proof.
  unfold toggled. destruct (SQLite.id_is key r) eqn:E; [|exact E].
  destruct key; exact E.
Qed.

Lemma existsb_toggled (key : SQLite.Value) (rows : list SQLite.Row) :
  existsb (SQLite.id_is key) (map (toggled key) rows) = existsb (SQLite.id_is key) rows.
Proof.
  induction rows as [|x rows IH]; simpl; [reflexivity|].
  rewrite id_is_toggled, IH. reflexivity.
Qed.

(** One toggle, seen through [getAllTasks]: the first record with the
    identifier has its [completed] flipped. *)
Lemma toggle_flips (s : DatabaseService) (id' : number) :
  ready s -> present id' s = true ->
  exists s1 l l1 k t t1,
    toggleTaskCompletion id' s = (Fulfilled tt, s1) /\
    ready s1 /\ present id' s1 = true /\
    fst (getAllTasks s) = Fulfilled l /\
    fst (getAllTasks s1) = Fulfilled l1 /\
    findIndex (has_id id') l = Some k /\
    nth_error l k = Some t /\
    nth_error l1 k = Some t1 /\
    completed t1 = negb (completed t).
Proof.
  intros Hready Hpres.
  destruct (getAllTasks_ready s Hready) as [l Hl].
  assert (Hex : existsb (has_id id') l = true)
    by (rewrite (getAllTasks_present s id' l Hl); exact Hpres).
  destruct (findIndex (has_id id') l) as [k|] eqn:Hk;
    [|apply findIndex_None_existsb in Hk; congruence].
  destruct (findIndex_Some_nth _ _ _ Hk) as (t & Ht & Hid).
  unfold toggleTaskCompletion, getAllTasks, present, ready in *.
  destruct (isWeb s) eqn:Hweb.
  - simpl in Hl. injection Hl as <-.
    assert (Hk' : findIndex (has_id id') (getStoredTasks s) = Some k).
    { clear -Hk. revert k Hk. induction (getStoredTasks s) as [|x r IH]; simpl; intros k Hk;
        [discriminate|].
      rewrite has_id_resolve_image in Hk. destruct (has_id id' x); [exact Hk|].
      destruct (findIndex (has_id id') (map resolve_image r)) as [j|]; [|discriminate].
      rewrite (IH j eq_refl). exact Hk. }
    rewrite Hk'. rewrite nth_error_map in Ht.
    destruct (nth_error (getStoredTasks s) k) as [t0|] eqn:Ht0; [|discriminate].
    simpl in Ht. injection Ht as <-.
    eexists. exists (map resolve_image (getStoredTasks s)).
    eexists. exists k, (resolve_image t0), (resolve_image (flip_completed t0)).
    split; [reflexivity|]. simpl. rewrite Hweb. simpl.
    split; [left; reflexivity|]. split.
    { cbn [getStoredTasks call set_localStorage localStorage].
      destruct (existsb (has_id id') (modify (getStoredTasks s) k flip_completed)) eqn:E;
        [reflexivity|].
      apply findIndex_None_existsb in E.
      rewrite (findIndex_modify (has_id id') flip_completed _ k (fun _ => eq_refl) Hk') in E.
      discriminate. }
    split; [reflexivity|]. split; [reflexivity|]. split; [exact Hk|].
    split; [rewrite nth_error_map, Ht0; reflexivity|].
    split; [|reflexivity].
    cbn [getStoredTasks call set_localStorage localStorage].
    rewrite nth_error_map, nth_error_modify, Nat.eqb_refl, Ht0. reflexivity.
  - destruct Hready as [Hready | Hready]; [discriminate|].
    destruct (db s) as [c|] eqn:Hc; [|congruence].
    simpl in Hl. injection Hl as <-.
    unfold SQLite.select_all in *.
    change (SQLite.tasks (SQLite.toggle (SQLite.REAL id') (tasks_db s)))
      with (map (toggled (SQLite.REAL id')) (SQLite.tasks (tasks_db s))).
    rewrite nth_error_map in Ht.
    destruct (nth_error (SQLite.order_by_created_at_desc (SQLite.tasks (tasks_db s))) k)
      as [r|] eqn:Hr; [|discriminate].
    simpl in Ht. injection Ht as <-.
    eexists. eexists. eexists. exists k, (of_row r), (flip_completed (of_row r)).
    split; [reflexivity|].
    cbn [isWeb db tasks_db call set_tasks_db fst snd]. rewrite Hweb, Hc.
    change (SQLite.tasks (SQLite.toggle (SQLite.REAL id') (tasks_db s)))
      with (map (toggled (SQLite.REAL id')) (SQLite.tasks (tasks_db s))).
    split; [right; discriminate|]. split.
    { rewrite existsb_toggled. exact Hpres. }
    split; [reflexivity|]. split; [reflexivity|]. split; [exact Hk|].
    split; [rewrite nth_error_map, Hr; reflexivity|].
    split; [|reflexivity].
    cbn [fst].
    rewrite order_by_map by apply toggled_created_at.
    rewrite !nth_error_map, Hr. simpl. rewrite of_row_toggled, Hid. reflexivity.
Qed.

Lemma toggle_twice_getAllTasks (s : DatabaseService) (id' : number) :
  ready s -> present id' s = true ->
  exists s1 s2,
    toggleTaskCompletion id' s = (Fulfilled tt, s1) /\
    toggleTaskCompletion id' s1 = (Fulfilled tt, s2) /\
    getStoredTasks s2 = getStoredTasks s /\
    fst (getAllTasks s2) = fst (getAllTasks s).
Proof.
  intros Hready Hpres.
  unfold toggleTaskCompletion, getAllTasks, present, ready in *.
  destruct (isWeb s) eqn:Hweb.
  - destruct (findIndex (has_id id') (getStoredTasks s)) as [k|] eqn:Hk;
      [|apply findIndex_None_existsb in Hk; congruence].
    eexists. eexists. split; [reflexivity|].
    cbn [isWeb call set_localStorage getStoredTasks localStorage fst snd saveTasksToStorage].
    rewrite Hweb.
    change (match localStorage s with
            | Some (TaskArray tasks) => tasks
            | _ => []
            end) with (getStoredTasks s).
    rewrite (findIndex_modify (has_id id') flip_completed _ k (fun _ => eq_refl) Hk).
    split; [reflexivity|].
    cbn [isWeb call set_localStorage getStoredTasks localStorage fst snd saveTasksToStorage].
    rewrite modify_modify, modify_same by apply flip_completed_twice.
    rewrite Hweb. split; reflexivity.
  - destruct Hready as [Hready | Hready]; [discriminate|].
    destruct (db s) as [c|] eqn:Hc; [|congruence].
    eexists. eexists. split; [reflexivity|].
    cbn [isWeb db tasks_db call set_tasks_db fst snd localStorage getStoredTasks].
    rewrite Hweb, Hc.
    split; [reflexivity|]. split; [reflexivity|].
    cbn [isWeb db tasks_db call set_tasks_db fst snd]. rewrite Hweb, Hc.
    cbn [fst]. f_equal.
    unfold SQLite.select_all.
    change (SQLite.tasks
              (SQLite.toggle (SQLite.REAL id')
                 (SQLite.toggle (SQLite.REAL id') (tasks_db s))))
      with (map (toggled (SQLite.REAL id'))
              (map (toggled (SQLite.REAL id')) (SQLite.tasks (tasks_db s)))).
    rewrite !order_by_map by apply toggled_created_at.
    rewrite !map_map. apply map_ext. intros r. apply of_row_toggled_twice.
Qed.

(** C9: with a record of the given identifier in the store, two
    [toggleTaskCompletion] calls in a row both resolve; the first flips the
    record's [completed], the second brings it back: [getAllTasks] returns
    what it returned before the two calls. *)
Theorem toggle_twice_restores (s : DatabaseService) (id' : number) :
  ready s -> present id' s = true ->
  exists s1 s2 l l1 k t t1,
    toggleTaskCompletion id' s = (Fulfilled tt, s1) /\
    toggleTaskCompletion id' s1 = (Fulfilled tt, s2) /\
    fst (getAllTasks s) = Fulfilled l /\
    fst (getAllTasks s1) = Fulfilled l1 /\
    findIndex (has_id id') l = Some k /\
    nth_error l k = Some t /\
    nth_error l1 k = Some t1 /\
    completed t1 = negb (completed t) /\
    fst (getAllTasks s2) = Fulfilled l.
Proof.
  intros Hready Hpres.
  destruct (toggle_flips s id' Hready Hpres)
    as (s1 & l & l1 & k & t & t1 & E1 & _ & _ & Hl & Hl1 & Hk & Ht & Ht1 & Hflip).
  destruct (toggle_twice_getAllTasks s id' Hready Hpres) as (s1' & s2 & E1' & E2 & _ & Hsame).
  rewrite E1 in E1'. injection E1' as <-.
  exists s1, s2, l, l1, k, t, t1.
  repeat (split; [assumption|]). rewrite Hsame. exact Hl.
Qed.

Lemma toggle_twice_restores_witness :
  let s := snd (addTasks [(note "a" false, world noon fetch_rejects);
                          (note "b" false, world noon fetch_rejects)] browser) in
  let i := generateId (world noon fetch_rejects) in
  ready s /\ present i s = true /\
  exists s1 s2 l l1 k t t1,
    toggleTaskCompletion i s = (Fulfilled tt, s1) /\
    toggleTaskCompletion i s1 = (Fulfilled tt, s2) /\
    fst (getAllTasks s) = Fulfilled l /\
    fst (getAllTasks s1) = Fulfilled l1 /\
    findIndex (has_id i) l = Some k /\
    nth_error l k = Some t /\
    nth_error l1 k = Some t1 /\
    completed t1 = negb (completed t) /\
    fst (getAllTasks s2) = Fulfilled l.
Proof.
  intros s i.
  assert (H1 : ready s) by (left; reflexivity).
  assert (H2 : present i s = true) by (vm_compute; reflexivity).
  split; [exact H1|]. split; [exact H2|].
  exact (toggle_twice_restores s i H1 H2).
Defined.

(** ** [addTask] *)

Lemma or_zero_same (n : Z) : or_zero n = n.
Proof. unfold or_zero. destruct (Z.eqb_spec n 0); congruence. Qed.

(** The browser branch of [addTask], once the image step has settled. *)
Lemma addTask_browser (s : DatabaseService) (task : ITask) (w : World) :
  isWeb s = true -> encodes (task, w) = true ->
  exists b,
    addTask task w s =
    (Fulfilled (generateId w),
     call setItem
       (set_localStorage
          (Some (TaskArray
                   ({| id := Some (generateId w);
                       text := text task;
                       image_filepath := image_filepath task;
                       image_webview_path := image_webview_path task;
                       image_base64 := Some b;
                       completed := false;
                       created_at := Some (ISO (new_Date w)) |}
                    :: getStoredTasks s))) s)).
Proof.
  intros Hweb Henc. unfold addTask, encodes in *. rewrite Hweb. simpl in Henc.
  unfold bind, settle, ret, saveTasksToStorage.
  destruct (image_webview_path task) as [path|].
  - destruct (truthy path).
    + destruct (convertImageToBase64 path w) as [b|]; [|discriminate].
      exists b; reflexivity.
    + exists EmptyString; reflexivity.
  - exists EmptyString; reflexivity.
Qed.

(** The native branch of [addTask] on an open connection. *)
Lemma addTask_native (s : DatabaseService) (task : ITask) (w : World) :
  isWeb s = false -> db s <> None ->
  addTask task w s =
  (Fulfilled (inject_Z (SQLite.next_rowid (tasks_db s))),
   call db_run
     (set_tasks_db
        (snd (SQLite.insert (text task) (image_filepath task)
                (or_empty (image_webview_path task)) (or_empty (image_base64 task))
                0 (CURRENT_TIMESTAMP w) (tasks_db s))) s)).
Proof.
  intros Hnat Hdb. unfold addTask. rewrite Hnat.
  destruct (db s); [|congruence].
  unfold SQLite.insert. rewrite or_zero_same. reflexivity.
Qed.

(** C10: whatever [completed] the caller passes, the record [addTask] stores
    has [completed] false on both backends: [getAllTasks] afterwards is what
    it was before with one record put in, which carries the returned
    identifier, the text of the input, and [completed = false]. *)
Theorem addTask_stores_not_completed (s : DatabaseService) (task : ITask) (w : World) :
  ready s ->
  (isWeb s = true -> encodes (task, w) = true) ->
  exists i s' l1 t l2,
    addTask task w s = (Fulfilled i, s') /\
    fst (getAllTasks s) = Fulfilled (l1 ++ l2) /\
    fst (getAllTasks s') = Fulfilled (l1 ++ t :: l2) /\
    id t = Some i /\
    text t = text task /\
    completed t = false.
Proof.
  intros Hready Henc. destruct (isWeb s) eqn:Hweb.
  - destruct (addTask_browser s task w Hweb (Henc eq_refl)) as [b E].
    eexists. eexists. exists []. eexists. eexists.
    split; [exact E|]. unfold getAllTasks.
    cbn [isWeb call set_localStorage getStoredTasks localStorage fst].
    rewrite Hweb. cbn [fst map app].
    split; [reflexivity|]. split; [reflexivity|]. repeat split.
  - destruct Hready as [Hready | Hready]; [congruence|].
    rewrite (addTask_native s task w Hweb Hready).
    destruct (order_by_snoc (SQLite.tasks (tasks_db s))
                {| SQLite.row_id := SQLite.next_rowid (tasks_db s);
                   SQLite.row_text := text task;
                   SQLite.row_image_filepath := image_filepath task;
                   SQLite.row_image_webview_path := or_empty (image_webview_path task);
                   SQLite.row_image_base64 := or_empty (image_base64 task);
                   SQLite.row_completed := 0;
                   SQLite.row_created_at := CURRENT_TIMESTAMP w |})
      as (a & b & E1 & E2).
    eexists. eexists. exists (map of_row a). eexists. exists (map of_row b).
    split; [reflexivity|]. unfold getAllTasks.
    cbn [isWeb db tasks_db call set_tasks_db fst snd SQLite.insert].
    rewrite Hweb. destruct (db s); [|congruence]. cbn [fst].
    unfold SQLite.select_all. cbn [SQLite.tasks]. rewrite E1, E2.
    rewrite !map_app. cbn [map].
    split; [reflexivity|]. split; [reflexivity|]. repeat split.
Qed.

Lemma addTask_stores_not_completed_witness :
  let s := browser in
  let task := note "a" true in
  let w := world noon fetch_rejects in
  ready s /\ (isWeb s = true -> encodes (task, w) = true) /\
  exists i s' l1 t l2,
    addTask task w s = (Fulfilled i, s') /\
    fst (getAllTasks s) = Fulfilled (l1 ++ l2) /\
    fst (getAllTasks s') = Fulfilled (l1 ++ t :: l2) /\
    id t = Some i /\
    text t = text task /\
    completed t = false.
Proof.
  intros s task w.
  assert (H1 : ready s) by (left; reflexivity).
  assert (H2 : isWeb s = true -> encodes (task, w) = true) by (intros _; reflexivity).
  split; [exact H1|]. split; [exact H2|].
  exact (addTask_stores_not_completed s task w H1 H2).
Defined.

(** ** Sequences of [addTask] *)

Lemma addTasks_browser (calls : list (ITask * World)) (s : DatabaseService) :
  isWeb s = true -> forallb encodes calls = true ->
  exists s' news,
    addTasks calls s = (Fulfilled (map (fun c => generateId (snd c)) calls), s') /\
    isWeb s' = true /\
    getStoredTasks s' = news ++ getStoredTasks s /\
    Forall2 stored_for news (rev calls).
Proof.
  revert s; induction calls as [|[task w] calls IH]; intros s Hweb Henc.
  - exists s, []. repeat split; [assumption | constructor].
  - simpl in Henc. apply andb_prop in Henc. destruct Henc as [Hc Hrest].
    destruct (addTask_browser s task w Hweb Hc) as [b E].
    set (t := {| id := Some (generateId w); text := text task;
                 image_filepath := image_filepath task;
                 image_webview_path := image_webview_path task;
                 image_base64 := Some b; completed := false;
                 created_at := Some (ISO (new_Date w)) |}) in E.
    set (s1 := call setItem
                 (set_localStorage (Some (TaskArray (t :: getStoredTasks s))) s)) in E.
    destruct (IH s1 Hweb Hrest) as (s' & news & E' & Hweb' & Hst & Hall).
    exists s', (news ++ [t]).
    split; [|split; [exact Hweb' | split]].
    + simpl. unfold bind at 1. rewrite E. unfold bind at 1. rewrite E'. reflexivity.
    + rewrite Hst, <- app_assoc. reflexivity.
    + simpl. apply Forall2_app; [exact Hall|].
      constructor; [|constructor]. repeat split.
Qed.

Lemma addTasks_native (calls : list (ITask * World)) (s : DatabaseService) :
  isWeb s = false -> db s <> None ->
  exists s' rows,
    addTasks calls s =
      (Fulfilled (map (fun r => inject_Z (SQLite.row_id r)) rows), s') /\
    isWeb s' = false /\ db s' = db s /\
    SQLite.tasks (tasks_db s') = SQLite.tasks (tasks_db s) ++ rows /\
    Forall2 inserted_for rows calls /\
    StronglySorted Z.lt (map SQLite.row_id rows) /\
    Forall (fun r => (SQLite.next_rowid (tasks_db s) <= SQLite.row_id r)%Z) rows.
Proof.
  revert s; induction calls as [|[task w] calls IH]; intros s Hnat Hdb.
  - exists s, []. rewrite app_nil_r.
    split; [reflexivity|]. split; [exact Hnat|]. do 2 (split; [reflexivity|]).
    split; [constructor|]. split; constructor.
  - pose proof (addTask_native s task w Hnat Hdb) as E.
    set (r := {| SQLite.row_id := SQLite.next_rowid (tasks_db s);
                 SQLite.row_text := text task;
                 SQLite.row_image_filepath := image_filepath task;
                 SQLite.row_image_webview_path := or_empty (image_webview_path task);
                 SQLite.row_image_base64 := or_empty (image_base64 task);
                 SQLite.row_completed := 0;
                 SQLite.row_created_at := CURRENT_TIMESTAMP w |}).
    set (s1 := call db_run
                 (set_tasks_db
                    (snd (SQLite.insert (text task) (image_filepath task)
                            (or_empty (image_webview_path task))
                            (or_empty (image_base64 task))
                            0 (CURRENT_TIMESTAMP w) (tasks_db s))) s)) in E.
    destruct (IH s1 Hnat Hdb) as (s' & rows & E' & Hnat' & Hdb' & Hrows & Hall & Hsort & Hlow).
    assert (Hnext : (SQLite.next_rowid (tasks_db s) < SQLite.next_rowid (tasks_db s1))%Z).
    { unfold s1, SQLite.insert.
      cbn [tasks_db call set_tasks_db snd].
      unfold SQLite.next_rowid at 2.
      cbn [SQLite.sqlite_sequence SQLite.tasks]. lia. }
    exists s', (r :: rows).
    split; [|split; [exact Hnat' | split; [exact Hdb' | split; [|split; [|split]]]]].
    + simpl. unfold bind at 1. rewrite E. unfold bind at 1. rewrite E'. reflexivity.
    + rewrite Hrows. unfold s1, SQLite.insert. simpl. rewrite <- app_assoc. reflexivity.
    + constructor; [repeat split | exact Hall].
    + simpl. constructor; [exact Hsort|].
      apply Forall_map. eapply Forall_impl; [|exact Hlow]. cbv beta. intros a Ha.
      unfold r; cbn [SQLite.row_id]. lia.
    + constructor; [unfold r; cbn [SQLite.row_id]; lia|].
      eapply Forall_impl; [|exact Hlow]. cbv beta. intros a Ha. lia.
Qed.

(** ** [getAllTasks] after a run of [addTask] *)

Section Transfer.

Context {A B : Type} (R : A -> B -> Prop).

Lemma Forall2_map_eq {C : Type} (f : A -> C) (g : B -> C) (l : list A) (l' : list B) :
  (forall a b, R a b -> f a = g b) ->
  Forall2 R l l' -> map f l = map g l'.
Proof.
  intros H F; induction F as [|a b l l' Hab F IH]; simpl; [reflexivity|].
  rewrite (H a b Hab), IH. reflexivity.
Qed.

Lemma Forall2_length_eq (l : list A) (l' : list B) :
  Forall2 R l l' -> List.length l = List.length l'.
Proof. intros F; induction F; simpl; congruence. Qed.

Lemma StronglySorted_Forall2 (P : A -> A -> Prop) (Q : B -> B -> Prop)
    (l : list A) (l' : list B) :
  (forall a b c d, R a c -> R b d -> Q c d -> P a b) ->
  Forall2 R l l' -> StronglySorted Q l' -> StronglySorted P l.
Proof.
  intros H F; induction F as [|a c l l' Hac F IH]; intros S.
  - constructor.
  - inversion S as [|? ? S' Hall]; subst. constructor; [apply IH, S'|].
    clear IH S S'. induction F as [|b d l l' Hbd F IH]; [constructor|].
    inversion Hall; subst. constructor; [eapply H; eassumption | apply IH; assumption].
Qed.

End Transfer.

Lemma StronglySorted_snoc {A : Type} (P : A -> A -> Prop) (l : list A) (x : A) :
  StronglySorted P l -> Forall (fun y => P y x) l -> StronglySorted P (l ++ [x]).
Proof.
  intros S; induction S as [|y l S IH Hy]; simpl; intros F.
  - constructor; constructor.
  - inversion F; subst. constructor; [apply IH; assumption|].
    apply Forall_app. split; [assumption | constructor; [assumption | constructor]].
Qed.

Lemma StronglySorted_rev {A : Type} (P : A -> A -> Prop) (l : list A) :
  StronglySorted P l -> StronglySorted (fun a b => P b a) (rev l).
Proof.
  intros S; induction S as [|x l S IH Hx]; simpl; [constructor|].
  apply StronglySorted_snoc; [exact IH|].
  apply Forall_forall. intros y Hy. apply in_rev in Hy.
  rewrite Forall_forall in Hx. apply Hx, Hy.
Qed.

Lemma Forall2_map_l {A B : Type} (f : B -> A) (l : list B) :
  Forall2 (fun a b => a = f b) (map f l) l.
Proof. induction l; simpl; constructor; auto. Qed.

Lemma Forall2_resolve_image (news : list ITask) (calls : list (ITask * World)) :
  Forall2 stored_for news calls ->
  Forall2 stored_for (map resolve_image news) calls.
Proof.
  intros F; induction F as [|t c l l' Htc F IH]; simpl; constructor; auto.
Qed.

(** C5, as stated, fails in two places.  On the native backend "a", "b", "c"
    added within one second all get the same [created_at], and the SELECT
    returns them as [a; b; c].  On the browser backend the list is kept in
    reverse insertion order whatever the clock says: after the clock is set
    back, the record in front is older than the one behind it. *)
Lemma getAllTasks_order_counterexample :
  (exists l,
     fst ((addTasks abc ;;; getAllTasks) device) = Fulfilled l /\
     map text l = ["a"; "b"; "c"]%string /\
     map text l <> rev (texts abc)) /\
  (exists l,
     fst ((addTasks clock_set_back ;;; getAllTasks) browser) = Fulfilled l /\
     ~ newest_first l).
Proof.
  split.
  - eexists. split; [reflexivity|]. split; [reflexivity | discriminate].
  - eexists. split; [reflexivity|]. intros H.
    inversion H as [|? ? _ Hall]; subst. inversion Hall as [|? ? Hfirst _]; subst.
    unfold not_older in Hfirst. simpl in Hfirst. unfold noon in Hfirst. lia.
Qed.

(** C5 (amended): from an empty store, [N] [addTask] calls resolve and
    [getAllTasks] then returns exactly [N] records.  On the browser backend
    they come in reverse insertion order ("a", "b", "c" give [c; b; a]), which
    is descending [created_at] when the clock never steps back between the
    calls.  On the native backend they come in descending [created_at], which
    is reverse insertion order when every call falls into a later second than
    the calls before it. *)
Theorem getAllTasks_after_addTasks (s : DatabaseService) (calls : list (ITask * World)) :
  (isWeb s = true -> getStoredTasks s = [] -> forallb encodes calls = true ->
   exists ids s' l,
     addTasks calls s = (Fulfilled ids, s') /\
     fst (getAllTasks s') = Fulfilled l /\
     List.length l = List.length calls /\
     map text l = rev (texts calls) /\
     (clock_never_back calls -> newest_first l)) /\
  (isWeb s = false -> db s <> None -> SQLite.tasks (tasks_db s) = [] ->
   exists ids s' l,
     addTasks calls s = (Fulfilled ids, s') /\
     fst (getAllTasks s') = Fulfilled l /\
     List.length l = List.length calls /\
     newest_first l /\
     (seconds_apart calls -> map text l = rev (texts calls))).
Proof.
  split.
  - intros Hweb Hempty Henc.
    destruct (addTasks_browser calls s Hweb Henc) as (s' & news & E & Hweb' & Hst & Hall).
    rewrite Hempty, app_nil_r in Hst.
    apply Forall2_resolve_image in Hall.
    eexists. exists s', (map resolve_image news).
    split; [exact E|]. unfold getAllTasks. rewrite Hweb', Hst.
    split; [reflexivity|]. split; [|split].
    + rewrite (Forall2_length_eq _ _ _ Hall), length_rev. reflexivity.
    + unfold texts. rewrite <- map_rev.
      apply (Forall2_map_eq stored_for); [|exact Hall].
      intros a b (_ & Ht & _). exact Ht.
    + intros Hclock. apply StronglySorted_rev in Hclock.
      eapply (StronglySorted_Forall2 stored_for); [|exact Hall | exact Hclock].
      cbv beta. intros a b c d (_ & _ & _ & Ha) (_ & _ & _ & Hb) Hle.
      unfold not_older. rewrite Ha, Hb. simpl. exact Hle.
  - intros Hnat Hdb Hempty.
    destruct (addTasks_native calls s Hnat Hdb)
      as (s' & rows & E & Hnat' & Hdb' & Hrows & Hall & _ & _).
    rewrite Hempty in Hrows. simpl in Hrows.
    eexists. exists s', (map of_row (SQLite.order_by_created_at_desc rows)).
    split; [exact E|]. unfold getAllTasks. rewrite Hnat', Hdb'.
    destruct (db s); [|congruence]. unfold SQLite.select_all. rewrite Hrows.
    split; [reflexivity|]. split; [|split].
    + rewrite length_map, length_order_by. apply (Forall2_length_eq _ _ _ Hall).
    + eapply (StronglySorted_Forall2 (fun a b => a = of_row b));
        [| apply Forall2_map_l | apply order_by_descending].
      cbv beta. intros a b c d -> -> Hle. unfold not_older.
      cbn [created_at of_row instant]. lia.
    + intros Hsec.
      assert (Hinc : StronglySorted
                       (fun a b => (SQLite.row_created_at a < SQLite.row_created_at b)%Z)
                       rows).
      { eapply (StronglySorted_Forall2 inserted_for); [|exact Hall | exact Hsec].
        cbv beta. intros a b c d (_ & _ & Ha) (_ & _ & Hb) Hlt. lia. }
      rewrite (order_by_increasing rows Hinc), map_map. unfold texts.
      rewrite <- !map_rev. f_equal.
      change (fun x => text (of_row x)) with SQLite.row_text.
      rewrite !map_rev. f_equal.
      apply (Forall2_map_eq inserted_for); [|exact Hall].
      intros a b (Ht & _). exact Ht.
Qed.

Lemma getAllTasks_after_addTasks_witness :
  (exists ids s' l,
     addTasks abc browser = (Fulfilled ids, s') /\
     fst (getAllTasks s') = Fulfilled l /\
     List.length l = 3%nat /\
     map text l = ["c"; "b"; "a"]%string /\
     newest_first l) /\
  (exists ids s' l,
     addTasks abc_seconds device = (Fulfilled ids, s') /\
     fst (getAllTasks s') = Fulfilled l /\
     List.length l = 3%nat /\
     newest_first l /\
     map text l = ["c"; "b"; "a"]%string).
Proof.
  split.
  - destruct (proj1 (getAllTasks_after_addTasks browser abc) eq_refl eq_refl eq_refl)
      as (ids & s' & l & E & Hl & Hn & Ht & Hs).
    exists ids, s', l. repeat (split; [assumption|]).
    apply Hs. unfold clock_never_back, abc.
    repeat constructor; vm_compute; discriminate.
  - assert (Hdb : db device <> None) by discriminate.
    destruct (proj2 (getAllTasks_after_addTasks device abc_seconds) eq_refl Hdb eq_refl)
      as (ids & s' & l & E & Hl & Hn & Hs & Ht).
    exists ids, s', l. repeat (split; [assumption|]).
    apply Ht. unfold seconds_apart, abc_seconds.
    repeat constructor; vm_compute; reflexivity.
Defined.

(** ** Identifiers *)

(** On the browser backend the identifier is [Date.now() + Math.random()]:
    two calls in the same millisecond that draw the same number return the
    same identifier. *)
Lemma generateId_collides :
  let w := world_drawing noon (1 # 4) in
  exists i,
    fst (addTasks [(note "a" false, w); (note "b" false, w)] browser)
      = Fulfilled [i; i] /\
    ~ distinct [i; i].
Proof.
  intros w. eexists. split; [reflexivity|].
  intros H. inversion H as [|? ? Hall _]; subst.
  inversion Hall as [|? ? Hii _]; subst. vm_compute in Hii. discriminate.
Qed.

(** In the same millisecond two different draws collide as well when they are
    closer than the doubles near [Date.now()] are spaced (2^-12 today). *)
Lemma generateId_rounds_draws_together :
  generateId (world_drawing noon (1 # 4)) =
  generateId (world_drawing noon ((1 # 4) + (1 # 1048576))).
Proof. vm_compute. reflexivity. Qed.

(** C6: every [addTask] of a sequence returns an identifier distinct from
    the identifiers the other calls return.  On the browser backend two calls
    in the same millisecond whose draws of [Math.random] are 2^-20 apart
    return the same identifier, and [getAllTasks] then holds two records
    under it: the sum [Date.now() + Math.random()] is rounded to a double,
    and the doubles near the clock reading are 2^-12 apart. *)
Theorem addTask_returns_an_identifier_twice :
  let w1 := world_drawing noon (1 # 4) in
  let w2 := world_drawing noon ((1 # 4) + (1 # 1048576)) in
  let calls := [(note "a" false, w1); (note "b" false, w2)] in
  exists i,
    fst (addTasks calls browser) = Fulfilled [i; i] /\
    ~ distinct [i; i] /\
    exists l,
      fst (getAllTasks (snd (addTasks calls browser))) = Fulfilled l /\
      map text l = ["b"; "a"]%string /\
      map id l = [Some i; Some i].
Proof.
  intros w1 w2 calls. eexists. split; [vm_compute; reflexivity|]. split.
  - intros H. inversion H as [|? ? Hall _]; subst.
    inversion Hall as [|? ? Hii _]; subst. vm_compute in Hii. discriminate.
  - eexists. split; [vm_compute; reflexivity|]. split; reflexivity.
Qed.

Lemma distinct_increasing (zs : list Z) :
  StronglySorted Z.lt zs -> distinct (map inject_Z zs).
Proof.
  intros S; induction S as [|z zs S IH Hz]; simpl; [constructor|].
  constructor; [|exact IH].
  apply Forall_map. eapply Forall_impl; [|exact Hz]. cbv beta. intros a Ha.
  unfold strict_eq. destruct (Qeq_bool (inject_Z z) (inject_Z a)) eqn:E; [|reflexivity].
  apply Qeq_bool_eq in E. unfold Qeq in E. simpl in E. lia.
Qed.

(** The two branches of [addTask] side by side.  On the native backend every
    [addTask] returns an identifier above every identifier the table holds
    or has handed out, so the identifiers of a run of calls grow strictly and
    are pairwise distinct; on the browser backend each call returns
    [Date.now() + Math.random()] as read at the call, whatever was returned
    before. *)
Lemma addTasks_identifiers (s : DatabaseService) (calls : list (ITask * World)) :
  (isWeb s = false -> db s <> None ->
   exists zs s',
     addTasks calls s = (Fulfilled (map inject_Z zs), s') /\
     StronglySorted Z.lt zs /\
     distinct (map inject_Z zs) /\
     Forall (fun z => (SQLite.sqlite_sequence (tasks_db s) < z)%Z /\
                      (SQLite.max_rowid (SQLite.tasks (tasks_db s)) < z)%Z) zs) /\
  (isWeb s = true -> forallb encodes calls = true ->
   exists s',
     addTasks calls s = (Fulfilled (map (fun c => generateId (snd c)) calls), s')).
Proof.
  split.
  - intros Hnat Hdb.
    destruct (addTasks_native calls s Hnat Hdb)
      as (s' & rows & E & _ & _ & _ & _ & Hsort & Hlow).
    exists (map SQLite.row_id rows), s'. rewrite map_map.
    split; [exact E|]. split; [exact Hsort|].
    split; [rewrite <- (map_map SQLite.row_id inject_Z); apply distinct_increasing, Hsort|].
    apply Forall_map. eapply Forall_impl; [|exact Hlow]. cbv beta.
    unfold SQLite.next_rowid. intros a Ha. lia.
  - intros Hweb Henc.
    destruct (addTasks_browser calls s Hweb Henc) as (s' & news & E & _).
    exists s'. exact E.
Qed.

Lemma addTasks_identifiers_witness :
  (exists zs s',
     addTasks abc device = (Fulfilled (map inject_Z zs), s') /\
     StronglySorted Z.lt zs /\
     distinct (map inject_Z zs) /\
     Forall (fun z => (SQLite.sqlite_sequence (tasks_db device) < z)%Z /\
                      (SQLite.max_rowid (SQLite.tasks (tasks_db device)) < z)%Z) zs) /\
  (exists s',
     addTasks abc browser = (Fulfilled (map (fun c => generateId (snd c)) abc), s')).
Proof.
  split.
  - apply (proj1 (addTasks_identifiers device abc)); [reflexivity | discriminate].
  - apply (proj2 (addTasks_identifiers browser abc)); reflexivity.
Defined.

(** ** [updateTask] *)


Lemma Forall2_same {A : Type} (P : A -> A -> Prop) (l : list A) :
  (forall x, P x x) -> Forall2 P l l.
Proof. intros H; induction l; constructor; auto. Qed.





(** * Further properties of the service *)

(** ** The image step *)

(** X1: [convertImageToBase64] answers an empty path with [''] and a [data:] URL
    with the URL itself, in any world; it is rejected exactly when the image
    was fetched and the FileReader then reported an error. *)
Theorem convertImageToBase64_outcomes (path : string) (w : World) :
  (truthy path = false -> convertImageToBase64 path w = Fulfilled EmptyString) /\
  (truthy path = true -> startsWith path "data:" = true ->
   convertImageToBase64 path w = Fulfilled path) /\
  (forall e,
     convertImageToBase64 path w = Rejected e <->
     truthy path = true /\ startsWith path "data:" = false /\
     fetch w path = blob onerror /\ e = ProgressEvent "error") /\
  (forall v,
     convertImageToBase64 path w = Fulfilled v ->
     v = EmptyString \/ v = path \/ fetch w path = blob (onload v)).
Proof.
  unfold convertImageToBase64.
  destruct (truthy path) eqn:Ht; simpl.
  - destruct (startsWith path "data:") eqn:Hd; simpl.
    + split; [discriminate|]. split; [reflexivity|]. split.
      * intros e. split; [discriminate | intros (_ & H & _); discriminate].
      * intros v [= <-]. right; left; reflexivity.
    + split; [discriminate|]. split; [discriminate|].
      destruct (fetch w path) as [| |[r|]]; simpl; split.
      * intros e. split; [discriminate | intros (_ & _ & H & _); discriminate].
      * intros v [= <-]. left; reflexivity.
      * intros e. split; [discriminate | intros (_ & _ & H & _); discriminate].
      * intros v [= <-]. left; reflexivity.
      * intros e. split; [discriminate | intros (_ & _ & H & _); discriminate].
      * intros v [= <-]. right; right; reflexivity.
      * intros e. split; [intros [= <-]; auto | intros (_ & _ & _ & ->); reflexivity].
      * discriminate.
  - split; [reflexivity|]. split; [discriminate|]. split.
    + intros e. split; [discriminate | intros (H & _); discriminate].
    + intros v [= <-]. left; reflexivity.
Qed.

(** X2: On the browser backend the record [addTask] puts in front carries what the
    image step produced as [image_base64], and [getAllTasks] shows that
    inline image when it is not empty and the transient path of the input
    otherwise. *)
Theorem addTask_image_round_trip (s : DatabaseService) (task : ITask) (w : World)
    (path b : string) :
  isWeb s = true ->
  image_webview_path task = Some path ->
  truthy path = true ->
  convertImageToBase64 path w = Fulfilled b ->
  exists s' t rest,
    addTask task w s = (Fulfilled (generateId w), s') /\
    fst (getAllTasks s) = Fulfilled rest /\
    fst (getAllTasks s') = Fulfilled (t :: rest) /\
    text t = text task /\
    image_base64 t = Some b /\
    image_webview_path t = (if truthy b then Some b else Some path).
Proof.
  intros Hweb Hp Ht Hc. unfold addTask. rewrite Hweb, Hp, Ht.
  unfold bind, settle, ret, saveTasksToStorage. rewrite Hc.
  eexists. eexists. eexists. split; [reflexivity|].
  unfold getAllTasks. cbn [isWeb call set_localStorage getStoredTasks localStorage fst].
  rewrite Hweb. cbn [fst map]. split; [reflexivity|]. split; [reflexivity|].
  cbn [text image_base64 image_webview_path resolve_image or_else truthy_opt].
  repeat split.
Qed.

Lemma addTask_image_round_trip_witness :
  let task := photo_note "buy milk" "blob:http://localhost/1f0c" in
  let w := world noon (blob (onload "data:image/jpeg;base64,/9j/4AAQ")) in
  exists s' t rest,
    addTask task w browser = (Fulfilled (generateId w), s') /\
    fst (getAllTasks browser) = Fulfilled rest /\
    fst (getAllTasks s') = Fulfilled (t :: rest) /\
    text t = text task /\
    image_base64 t = Some "data:image/jpeg;base64,/9j/4AAQ"%string /\
    image_webview_path t = Some "data:image/jpeg;base64,/9j/4AAQ"%string.
Proof.
  intros task w.
  apply (addTask_image_round_trip browser task w
           "blob:http://localhost/1f0c" "data:image/jpeg;base64,/9j/4AAQ");
    reflexivity.
Defined.

(** ** A stored document that is missing or cannot be parsed *)

(** X3: On the browser backend a missing or unparsable item reads as no tasks:
    [getAllTasks] returns the empty list, [updateTask] and
    [toggleTaskCompletion] find nothing, [deleteTask] writes the empty array
    back, and the first [addTask] replaces the item by an array of the new
    record alone. *)
Theorem unreadable_item_reads_empty (s : DatabaseService) :
  isWeb s = true ->
  localStorage s = None \/ localStorage s = Some Unparsable ->
  fst (getAllTasks s) = Fulfilled [] /\
  (forall i u, updateTask i u s = (Rejected NotFound, s)) /\
  (forall i, toggleTaskCompletion i s = (Rejected NotFound, s)) /\
  (forall i, localStorage (snd (deleteTask i s)) = Some (TaskArray [])) /\
  (forall task w, encodes (task, w) = true ->
     exists t, localStorage (snd (addTask task w s)) = Some (TaskArray [t]) /\
               text t = text task /\ id t = Some (generateId w)).
Proof.
  intros Hweb Hitem.
  assert (Hst : getStoredTasks s = [])
    by (unfold getStoredTasks; destruct Hitem as [-> | ->]; reflexivity).
  split; [unfold getAllTasks; rewrite Hweb, Hst; reflexivity|].
  split; [intros i u; unfold updateTask; rewrite Hweb, Hst; reflexivity|].
  split; [intros i; unfold toggleTaskCompletion; rewrite Hweb, Hst; reflexivity|].
  split; [intros i; unfold deleteTask; rewrite Hweb, Hst; reflexivity|].
  intros task w Henc. destruct (addTask_browser s task w Hweb Henc) as [b E].
  rewrite E, Hst. eexists. split; [reflexivity|]. split; reflexivity.
Qed.

Lemma unreadable_item_reads_empty_witness :
  let s := new_DatabaseService true (Some Unparsable) empty_file in
  fst (getAllTasks s) = Fulfilled [] /\
  (forall i u, updateTask i u s = (Rejected NotFound, s)) /\
  (forall i, toggleTaskCompletion i s = (Rejected NotFound, s)) /\
  (forall i, localStorage (snd (deleteTask i s)) = Some (TaskArray [])) /\
  (forall task w, encodes (task, w) = true ->
     exists t, localStorage (snd (addTask task w s)) = Some (TaskArray [t]) /\
               text t = text task /\ id t = Some (generateId w)).
Proof.
  intros s. apply (unreadable_item_reads_empty s); [reflexivity | right; reflexivity].
Defined.

(** ** What [deleteTask] and [toggleTaskCompletion] leave alone *)

Lemma filter_map_comm {A B : Type} (f : A -> B) (p : B -> bool) (l : list A) :
  filter p (map f l) = map f (filter (fun x => p (f x)) l).
Proof.
  induction l as [|x l IH]; simpl; [reflexivity|].
  destruct (p (f x)); simpl; congruence.
Qed.

Lemma Forall_filter_kept {A : Type} (P : A -> Prop) (p : A -> bool) (l : list A) :
  Forall P l -> Forall P (filter p l).
Proof.
  intros H; induction H as [|a m Ha H IH]; simpl; [constructor|].
  destruct (p a); [constructor; assumption | assumption].
Qed.

Lemma place_fits (r : SQLite.Row) (l : list SQLite.Row) :
  Forall (fun y => (SQLite.row_created_at y <= SQLite.row_created_at r)%Z) l ->
  SQLite.place r l = r :: l.
Proof.
  intros H; destruct H as [|y l Hy _]; simpl; [reflexivity|].
  destruct (Z.ltb_spec (SQLite.row_created_at r) (SQLite.row_created_at y));
    [lia | reflexivity].
Qed.

Lemma filter_place (p : SQLite.Row -> bool) (r : SQLite.Row) (l : list SQLite.Row) :
  descending l ->
  filter p (SQLite.place r l) =
  if p r then SQLite.place r (filter p l) else filter p l.
Proof.
  unfold descending. intros S; induction S as [|y l S IH Hy]; simpl.
  - destruct (p r); reflexivity.
  - destruct (Z.ltb_spec (SQLite.row_created_at r) (SQLite.row_created_at y)) as [Hlt|Hge].
    + simpl. rewrite IH. destruct (p y), (p r); simpl; try reflexivity.
      destruct (Z.ltb_spec (SQLite.row_created_at r) (SQLite.row_created_at y));
        [reflexivity | lia].
    + simpl. destruct (p r); [|reflexivity].
      symmetry. apply place_fits.
      assert (Hall : Forall (fun z => (SQLite.row_created_at z <= SQLite.row_created_at r)%Z)
                       (y :: l)).
      { constructor; [lia|]. eapply Forall_impl; [|exact Hy]. cbv beta. intros a Ha. lia. }
      change (Forall (fun z => (SQLite.row_created_at z <= SQLite.row_created_at r)%Z)
                (filter p (y :: l))).
      apply Forall_filter_kept, Hall.
Qed.

Lemma order_by_filter (p : SQLite.Row -> bool) (rows : list SQLite.Row) :
  SQLite.order_by_created_at_desc (filter p rows) =
  filter p (SQLite.order_by_created_at_desc rows).
Proof.
  induction rows as [|r rows IH]; simpl; [reflexivity|].
  rewrite filter_place by apply order_by_descending.
  destruct (p r); simpl; rewrite IH; reflexivity.
Qed.

(** X4: [deleteTask] takes out the records with the identifier and nothing else:
    what [getAllTasks] returns afterwards is what it returned before without
    those records, the others in the order they had. *)
Theorem deleteTask_keeps_the_rest (s : DatabaseService) (id' : number) :
  ready s ->
  exists s' l,
    deleteTask id' s = (Fulfilled tt, s') /\
    fst (getAllTasks s) = Fulfilled l /\
    fst (getAllTasks s') = Fulfilled (filter (fun t => negb (has_id id' t)) l).
Proof.
  intros Hready. unfold deleteTask, getAllTasks, ready in *.
  destruct (isWeb s) eqn:Hweb.
  - eexists. eexists. split; [reflexivity|].
    cbn [isWeb call set_localStorage getStoredTasks localStorage fst saveTasksToStorage].
    rewrite Hweb. cbn [fst]. split; [reflexivity|].
    rewrite filter_map_comm. reflexivity.
  - destruct Hready as [H | H]; [discriminate|].
    destruct (db s) as [c|] eqn:Hc; [|congruence].
    eexists. eexists. split; [reflexivity|].
    cbn [isWeb db tasks_db call set_tasks_db fst]. rewrite Hweb, Hc. cbn [fst].
    split; [reflexivity|].
    unfold SQLite.select_all, SQLite.delete. cbn [SQLite.tasks].
    rewrite order_by_filter, filter_map_comm. reflexivity.
Qed.

Lemma deleteTask_keeps_the_rest_witness :
  let s := snd (addTasks abc device) in
  ready s /\
  exists s' l,
    deleteTask 2 s = (Fulfilled tt, s') /\
    fst (getAllTasks s) = Fulfilled l /\
    fst (getAllTasks s') = Fulfilled (filter (fun t => negb (has_id 2 t)) l).
Proof.
  intros s. assert (H : ready s) by (right; discriminate).
  split; [exact H | exact (deleteTask_keeps_the_rest s 2 H)].
Defined.

Lemma Forall2_modify_found {A : Type} (p : A -> bool) (g : A -> A) (l : list A) (k : nat) :
  findIndex p l = Some k ->
  Forall2 (fun a b => b = a \/ (p a = true /\ b = g a)) l (modify l k g).
Proof.
  revert k; induction l as [|x l IH]; simpl; intros k H; [discriminate|].
  destruct (p x) eqn:E.
  - injection H as <-. simpl. constructor; [right; auto|].
    apply Forall2_same. intros a; left; reflexivity.
  - destruct (findIndex p l) as [j|]; simpl in H; [|discriminate].
    injection H as <-. simpl. constructor; [left; reflexivity | apply IH; reflexivity].
Qed.

Lemma Forall2_map_both {A B : Type} (R : A -> A -> Prop) (R' : B -> B -> Prop)
    (f : A -> B) (l l' : list A) :
  (forall a b, R a b -> R' (f a) (f b)) ->
  Forall2 R l l' -> Forall2 R' (map f l) (map f l').
Proof. intros H F; induction F; simpl; constructor; auto. Qed.

(** X5: [toggleTaskCompletion] changes [completed] and nothing else: every record
    [getAllTasks] returns afterwards is the record it returned at that place
    before, or, for a record with the identifier, that record with
    [completed] negated. *)
Theorem toggleTaskCompletion_changes_completed_only (s : DatabaseService) (id' : number) :
  ready s ->
  exists l l',
    fst (getAllTasks s) = Fulfilled l /\
    fst (getAllTasks (snd (toggleTaskCompletion id' s))) = Fulfilled l' /\
    Forall2
      (fun t t' =>
         t' = t \/
         (has_id id' t = true /\ same_but_completed t t' /\
          completed t' = negb (completed t)))
      l l'.
Proof.
  intros Hready. unfold toggleTaskCompletion, getAllTasks, ready in *.
  destruct (isWeb s) eqn:Hweb.
  - destruct (findIndex (has_id id') (getStoredTasks s)) as [k|] eqn:Hk.
    + eexists. eexists.
      cbn [isWeb call set_localStorage getStoredTasks localStorage fst snd
           saveTasksToStorage].
      rewrite Hweb. cbn [fst]. split; [reflexivity|]. split; [reflexivity|].
      change (match localStorage s with
              | Some (TaskArray tasks) => tasks
              | _ => []
              end) with (getStoredTasks s).
      eapply Forall2_map_both; [|apply (Forall2_modify_found _ flip_completed _ _ Hk)].
      cbv beta. intros a b [-> | [Ha ->]]; [left; reflexivity|].
      right. split; [exact Ha|]. split; [repeat split | reflexivity].
    + eexists. eexists. cbn [throw fst snd]. rewrite Hweb. cbn [fst].
      split; [reflexivity|]. split; [reflexivity|].
      apply Forall2_same. intros a; left; reflexivity.
  - destruct Hready as [H | H]; [discriminate|].
    destruct (db s) as [c|] eqn:Hc; [|congruence].
    eexists. eexists.
    cbn [isWeb db tasks_db call set_tasks_db fst snd]. rewrite Hweb, Hc. cbn [fst].
    split; [reflexivity|]. split; [reflexivity|].
    unfold SQLite.select_all.
    change (SQLite.tasks (SQLite.toggle (SQLite.REAL id') (tasks_db s)))
      with (map (toggled (SQLite.REAL id')) (SQLite.tasks (tasks_db s))).
    rewrite order_by_map by apply toggled_created_at. rewrite map_map.
    induction (SQLite.order_by_created_at_desc (SQLite.tasks (tasks_db s)))
      as [|r rows IH]; simpl; constructor; [|exact IH].
    rewrite of_row_toggled. destruct (has_id id' (of_row r)) eqn:E; [|left; reflexivity].
    right. split; [reflexivity|]. split; [repeat split | reflexivity].
Qed.

Lemma toggleTaskCompletion_changes_completed_only_witness :
  let s := snd (addTasks abc browser) in
  let i := generateId (world (noon + 1) fetch_rejects) in
  ready s /\
  exists l l',
    fst (getAllTasks s) = Fulfilled l /\
    fst (getAllTasks (snd (toggleTaskCompletion i s))) = Fulfilled l' /\
    Forall2
      (fun t t' =>
         t' = t \/
         (has_id i t = true /\ same_but_completed t t' /\
          completed t' = negb (completed t)))
      l l'.
Proof.
  intros s i. assert (H : ready s) by (left; reflexivity).
  split; [exact H | exact (toggleTaskCompletion_changes_completed_only s i H)].
Defined.

(** ** The SELECT of [getAllTasks] *)

Lemma place_Permutation (r : SQLite.Row) (l : list SQLite.Row) :
  Permutation (SQLite.place r l) (r :: l).
Proof.
  induction l as [|y l IH]; simpl; [reflexivity|].
  destruct (SQLite.row_created_at r <? SQLite.row_created_at y)%Z; [|reflexivity].
  rewrite IH. apply perm_swap.
Qed.

Lemma order_by_Permutation (rows : list SQLite.Row) :
  Permutation (SQLite.order_by_created_at_desc rows) rows.
Proof.
  induction rows as [|r rows IH]; simpl; [reflexivity|].
  rewrite place_Permutation. constructor. exact IH.
Qed.

(** X6: On the native backend [getAllTasks] returns every row of the table, each
    once, turned into a task object, newest [created_at] first. *)
Theorem getAllTasks_native_sorted (s : DatabaseService) :
  isWeb s = false -> db s <> None ->
  exists rows,
    fst (getAllTasks s) = Fulfilled (map of_row rows) /\
    Permutation rows (SQLite.tasks (tasks_db s)) /\
    descending rows /\
    newest_first (map of_row rows).
Proof.
  intros Hnat Hdb. unfold getAllTasks. rewrite Hnat.
  destruct (db s); [|congruence].
  exists (SQLite.select_all (tasks_db s)). unfold SQLite.select_all.
  split; [reflexivity|]. split; [apply order_by_Permutation|].
  split; [apply order_by_descending|].
  eapply (StronglySorted_Forall2 (fun a b => a = of_row b));
    [| apply Forall2_map_l | apply order_by_descending].
  cbv beta. intros a b c d -> -> Hle. unfold not_older.
  cbn [created_at of_row instant]. lia.
Qed.

Lemma getAllTasks_native_sorted_witness :
  let s := snd (addTasks abc_seconds device) in
  exists rows,
    fst (getAllTasks s) = Fulfilled (map of_row rows) /\
    Permutation rows (SQLite.tasks (tasks_db s)) /\
    descending rows /\
    newest_first (map of_row rows).
Proof.
  intros s. apply (getAllTasks_native_sorted s); [reflexivity | discriminate].
Defined.

(** ** Runs of calls *)

Lemma perform_isWeb (r : Request) (s : DatabaseService) :
  isWeb (perform r s) = isWeb s.
Proof.
  destruct r; unfold perform, addTask, getAllTasks, deleteTask, updateTask,
    toggleTaskCompletion, closeDatabase, clearAllTasks, bind, settle, ret, throw,
    saveTasksToStorage.
  - destruct (isWeb s) eqn:E.
    + destruct (image_webview_path task) as [path|]; [destruct (truthy path)|];
        try (simpl; exact E).
      destruct (convertImageToBase64 path w); simpl; exact E.
    + destruct (db s); simpl; exact E.
  - destruct (isWeb s) eqn:E; [|destruct (db s)]; simpl; exact E.
  - destruct (isWeb s) eqn:E; [|destruct (db s)]; simpl; exact E.
  - destruct (isWeb s) eqn:E.
    + destruct (findIndex (has_id id') (getStoredTasks s)); simpl; exact E.
    + destruct (db s); [|simpl; exact E].
      destruct (set_list updates) as [fields values]. destruct fields; simpl; exact E.
  - destruct (isWeb s) eqn:E.
    + destruct (findIndex (has_id id') (getStoredTasks s)); simpl; exact E.
    + destruct (db s); simpl; exact E.
  - destruct (isWeb s) eqn:E; simpl; [exact E|]. destruct (db s); simpl; exact E.
  - reflexivity.
Qed.

Lemma run_isWeb (rs : list Request) (s : DatabaseService) :
  isWeb (run rs s) = isWeb s.
Proof.
  unfold run. revert s; induction rs as [|r rs IH]; intros s; simpl; [reflexivity|].
  rewrite IH. apply perform_isWeb.
Qed.

(** What a call can do to the table: nothing, or one of the four statements. *)
Lemma perform_tasks_db (r : Request) (s : DatabaseService) :
  tasks_db (perform r s) = tasks_db s \/
  (exists a b c d e f,
     tasks_db (perform r s) = snd (SQLite.insert a b c d e f (tasks_db s))) \/
  (exists key, tasks_db (perform r s) = SQLite.delete key (tasks_db s)) \/
  (exists fields values,
     tasks_db (perform r s) = SQLite.update fields values (tasks_db s)) \/
  (exists key, tasks_db (perform r s) = SQLite.toggle key (tasks_db s)).
Proof.
  destruct r; unfold perform, addTask, getAllTasks, deleteTask, updateTask,
    toggleTaskCompletion, closeDatabase, clearAllTasks, bind, settle, ret, throw,
    saveTasksToStorage.
  - destruct (isWeb s).
    + left. destruct (image_webview_path task) as [path|]; [destruct (truthy path)|];
        try reflexivity.
      destruct (convertImageToBase64 path w); reflexivity.
    + destruct (db s); [|left; reflexivity].
      right; left. do 6 eexists. reflexivity.
  - left. destruct (isWeb s); [|destruct (db s)]; reflexivity.
  - destruct (isWeb s); [left; reflexivity|].
    destruct (db s); [|left; reflexivity]. right; right; left. eexists; reflexivity.
  - destruct (isWeb s).
    + left. destruct (findIndex (has_id id') (getStoredTasks s)); reflexivity.
    + destruct (db s); [|left; reflexivity].
      destruct (set_list updates) as [fields values].
      destruct fields; [left; reflexivity|].
      right; right; right; left. do 2 eexists; reflexivity.
  - destruct (isWeb s).
    + left. destruct (findIndex (has_id id') (getStoredTasks s)); reflexivity.
    + destruct (db s); [|left; reflexivity].
      right; right; right; right. eexists; reflexivity.
  - left. destruct (isWeb s); simpl; [reflexivity|]. destruct (db s); reflexivity.
  - left. reflexivity.
Qed.

Lemma set_column_row_id (r : SQLite.Row) (a : SQLite.Column * SQLite.Value) :
  SQLite.row_id (SQLite.set_column r a) = SQLite.row_id r.
Proof. destruct a as [[] []]; reflexivity. Qed.

Lemma fold_set_column_row_id (l : list (SQLite.Column * SQLite.Value)) (r : SQLite.Row) :
  SQLite.row_id (fold_left SQLite.set_column l r) = SQLite.row_id r.
Proof.
  revert r; induction l as [|a l IH]; intros r; simpl; [reflexivity|].
  rewrite IH. apply set_column_row_id.
Qed.

Lemma StronglySorted_map_filter {A B : Type} (R : B -> B -> Prop) (f : A -> B)
    (p : A -> bool) (l : list A) :
  StronglySorted R (map f l) -> StronglySorted R (map f (filter p l)).
Proof.
  induction l as [|x l IH]; simpl; intros S; [constructor|].
  inversion S as [|? ? S' Hx]; subst. destruct (p x); [|apply IH, S'].
  simpl. constructor; [apply IH, S'|].
  rewrite Forall_map in *. apply Forall_filter_kept, Hx.
Qed.

Lemma table_ok_rows (d : SQLite.Database) (f : SQLite.Row -> SQLite.Row) :
  (forall r, SQLite.row_id (f r) = SQLite.row_id r) ->
  table_ok d ->
  table_ok {| SQLite.tasks := map f (SQLite.tasks d);
              SQLite.sqlite_sequence := SQLite.sqlite_sequence d |}.
Proof.
  intros Hf [Hs Hb]. unfold table_ok. cbn [SQLite.tasks SQLite.sqlite_sequence].
  split.
  - rewrite map_map. rewrite (map_ext _ SQLite.row_id) by exact Hf. exact Hs.
  - apply Forall_map. eapply Forall_impl; [|exact Hb]. cbv beta. intros a Ha.
    rewrite Hf. exact Ha.
Qed.

(** Each of the four statements keeps the rowids growing and under the counter. *)
Lemma table_ok_statement (d d' : SQLite.Database) :
  table_ok d ->
  (exists a b c e f g, d' = snd (SQLite.insert a b c e f g d)) \/
  (exists key, d' = SQLite.delete key d) \/
  (exists fields values, d' = SQLite.update fields values d) \/
  (exists key, d' = SQLite.toggle key d) ->
  table_ok d'.
Proof.
  intros Hok [(a & b & c & e & f & g & ->) | [(key & ->) | [(fields & values & ->) | (key & ->)]]].
  - destruct Hok as [Hs Hb]. unfold SQLite.insert, table_ok.
    cbn [snd SQLite.tasks SQLite.sqlite_sequence].
    assert (Hlt : Forall (fun r => (SQLite.row_id r < SQLite.next_rowid d)%Z) (SQLite.tasks d)).
    { eapply Forall_impl; [|exact Hb]. cbv beta. unfold SQLite.next_rowid. intros x Hx. lia. }
    split.
    + rewrite map_app. cbn [map SQLite.row_id].
      apply StronglySorted_snoc; [exact Hs|]. apply Forall_map. exact Hlt.
    + apply Forall_app. split.
      * eapply Forall_impl; [|exact Hlt]. cbv beta. intros x Hx. lia.
      * constructor; [cbn [SQLite.row_id]; lia | constructor].
  - destruct Hok as [Hs Hb]. unfold SQLite.delete, table_ok.
    cbn [SQLite.tasks SQLite.sqlite_sequence]. split.
    + apply StronglySorted_map_filter, Hs.
    + apply Forall_filter_kept, Hb.
  - unfold SQLite.update. destruct (nth_error values (List.length fields)); [|exact Hok].
    apply table_ok_rows; [|exact Hok]. intros r.
    destruct (SQLite.id_is v r); [apply fold_set_column_row_id | reflexivity].
  - unfold SQLite.toggle. apply table_ok_rows; [|exact Hok]. intros r.
    destruct (SQLite.id_is key r); [apply set_column_row_id | reflexivity].
Qed.

Lemma perform_table_ok (r : Request) (s : DatabaseService) :
  table_ok (tasks_db s) -> table_ok (tasks_db (perform r s)).
Proof.
  intros Hok. destruct (perform_tasks_db r s) as [-> | H]; [exact Hok|].
  eapply table_ok_statement; [exact Hok | exact H].
Qed.

Lemma run_table_ok (rs : list Request) (s : DatabaseService) :
  table_ok (tasks_db s) -> table_ok (tasks_db (run rs s)).
Proof.
  unfold run. revert s; induction rs as [|r rs IH]; intros s Hok; simpl; [exact Hok|].
  apply IH, perform_table_ok, Hok.
Qed.

Lemma at_most_one_row (key : SQLite.Value) (rows : list SQLite.Row) :
  StronglySorted Z.lt (map SQLite.row_id rows) ->
  (List.length (filter (SQLite.id_is key) rows) <= 1)%nat.
Proof.
  induction rows as [|r rows IH]; simpl; intros S; [lia|].
  inversion S as [|? ? S' Hr]; subst. specialize (IH S').
  destruct (SQLite.id_is key r) eqn:E; [|exact IH].
  assert (Hnone : filter (SQLite.id_is key) rows = []).
  { clear IH S S'. rewrite Forall_map in Hr.
    induction Hr as [|x rows Hx Hr IH]; simpl; [reflexivity|].
    destruct (SQLite.id_is key x) eqn:Ex; [|exact IH]. exfalso.
    destruct key as [t|n|q]; simpl in E, Ex.
    - discriminate.
    - apply Z.eqb_eq in E, Ex. lia.
    - apply Qeq_bool_eq in E, Ex. rewrite <- Ex in E.
      unfold Qeq in E. simpl in E. lia. }
  rewrite Hnone. simpl. lia.
Qed.

Lemma NoDup_increasing (zs : list Z) : StronglySorted Z.lt zs -> NoDup zs.
Proof.
  intros S; induction S as [|z zs S IH Hz]; constructor; [|exact IH].
  intros Hin. rewrite Forall_forall in Hz. specialize (Hz z Hin). lia.
Qed.

(** X7: On the native backend no identifier names two tasks.  A table whose
    rowids grow with the position and stay under the AUTOINCREMENT counter,
    as the empty table does, is still such a table after any run of calls,
    [closeDatabase] and [clearAllTasks] among them, so its rows have
    pairwise different identifiers; and whenever [getAllTasks] resolves after
    the run, which it does while the connection is open, it returns at most
    one record for any identifier. *)
Theorem run_keeps_identifiers_unique (rs : list Request) (s : DatabaseService) :
  table_ok (tasks_db s) ->
  table_ok (tasks_db (run rs s)) /\
  NoDup (map SQLite.row_id (SQLite.tasks (tasks_db (run rs s)))) /\
  (isWeb s = false ->
   (db (run rs s) <> None -> exists l, fst (getAllTasks (run rs s)) = Fulfilled l) /\
   (forall l, fst (getAllTasks (run rs s)) = Fulfilled l ->
      forall i, (List.length (filter (has_id i) l) <= 1)%nat)).
Proof.
  intros Hok. pose proof (run_table_ok rs s Hok) as Hok'.
  split; [exact Hok'|]. split; [apply NoDup_increasing, (proj1 Hok')|].
  intros Hnat. unfold getAllTasks. rewrite run_isWeb, Hnat.
  destruct (db (run rs s)).
  - split; [intros _; eexists; reflexivity|].
    intros l [= <-] i. rewrite filter_map_comm, length_map.
    change (fun x => has_id i (of_row x)) with (SQLite.id_is (SQLite.REAL i)).
    unfold SQLite.select_all. rewrite <- order_by_filter, length_order_by.
    apply at_most_one_row. exact (proj1 Hok').
  - split; [congruence | discriminate].
Qed.

Lemma run_keeps_identifiers_unique_witness :
  let rs := [req_addTask (note "a" false) (world noon fetch_rejects);
             req_addTask (note "b" false) (world noon fetch_rejects);
             req_deleteTask 2;
             req_addTask (note "c" true) (world noon fetch_rejects);
             req_toggleTaskCompletion 3;
             req_clearAllTasks;
             req_closeDatabase;
             req_addTask (note "d" false) (world noon fetch_rejects)] in
  table_ok (tasks_db (run rs device)) /\
  NoDup (map SQLite.row_id (SQLite.tasks (tasks_db (run rs device)))) /\
  (isWeb device = false ->
   (db (run rs device) <> None ->
    exists l, fst (getAllTasks (run rs device)) = Fulfilled l) /\
   (forall l, fst (getAllTasks (run rs device)) = Fulfilled l ->
      forall i, (List.length (filter (has_id i) l) <= 1)%nat)).
Proof.
  intros rs. apply (run_keeps_identifiers_unique rs device).
  split; [constructor | constructor].
Defined.

Lemma perform_sequence (r : Request) (s : DatabaseService) :
  (SQLite.sqlite_sequence (tasks_db s)
   <= SQLite.sqlite_sequence (tasks_db (perform r s)))%Z.
Proof.
  destruct (perform_tasks_db r s)
    as [-> | [(a & b & c & e & f & g & ->) | [(key & ->) | [(fields & values & ->) | (key & ->)]]]].
  - lia.
  - unfold SQLite.insert, SQLite.next_rowid. cbn [snd SQLite.sqlite_sequence]. lia.
  - cbn [SQLite.delete SQLite.sqlite_sequence]. lia.
  - unfold SQLite.update. destruct (nth_error values (List.length fields));
      cbn [SQLite.sqlite_sequence]; lia.
  - cbn [SQLite.toggle SQLite.sqlite_sequence]. lia.
Qed.

Lemma run_sequence (rs : list Request) (s : DatabaseService) :
  (SQLite.sqlite_sequence (tasks_db s)
   <= SQLite.sqlite_sequence (tasks_db (run rs s)))%Z.
Proof.
  unfold run. revert s; induction rs as [|r rs IH]; intros s; simpl; [lia|].
  pose proof (perform_sequence r s). pose proof (IH (perform r s)). lia.
Qed.

(** X8: On the native backend an identifier is never handed out twice, whatever
    was deleted in between: the identifier an [addTask] returns is below the
    identifier of any [addTask] that follows it, after any run of calls. *)
Theorem identifiers_never_reused (s : DatabaseService) (rs : list Request)
    (task1 task2 : ITask) (w1 w2 : World) :
  isWeb s = false -> db s <> None ->
  db (run rs (snd (addTask task1 w1 s))) <> None ->
  exists z1 z2,
    fst (addTask task1 w1 s) = Fulfilled (inject_Z z1) /\
    fst (addTask task2 w2 (run rs (snd (addTask task1 w1 s)))) = Fulfilled (inject_Z z2) /\
    (z1 < z2)%Z.
Proof.
  intros Hnat Hdb Hdb'.
  rewrite (addTask_native s task1 w1 Hnat Hdb) in *. cbn [fst snd] in *.
  set (s1 := call db_run
               (set_tasks_db
                  (snd (SQLite.insert (text task1) (image_filepath task1)
                          (or_empty (image_webview_path task1))
                          (or_empty (image_base64 task1)) 0 (CURRENT_TIMESTAMP w1)
                          (tasks_db s))) s)) in *.
  assert (Hnat' : isWeb (run rs s1) = false) by (rewrite run_isWeb; exact Hnat).
  rewrite (addTask_native (run rs s1) task2 w2 Hnat' Hdb'). cbn [fst].
  do 2 eexists. split; [reflexivity|]. split; [reflexivity|].
  pose proof (run_sequence rs s1) as Hseq.
  unfold SQLite.next_rowid at 2.
  change (SQLite.sqlite_sequence (tasks_db s1)) with (SQLite.next_rowid (tasks_db s)) in Hseq.
  lia.
Qed.

Lemma identifiers_never_reused_witness :
  let w := world noon fetch_rejects in
  let rs := [req_deleteTask 1; req_getAllTasks] in
  exists z1 z2,
    fst (addTask (note "a" false) w device) = Fulfilled (inject_Z z1) /\
    fst (addTask (note "b" false) w
           (run rs (snd (addTask (note "a" false) w device))))
      = Fulfilled (inject_Z z2) /\
    (z1 < z2)%Z.
Proof.
  intros w rs.
  apply (identifiers_never_reused device rs (note "a" false) (note "b" false) w w);
    [reflexivity | discriminate | discriminate].
Defined.






Lemma perform_backend (r : Request) (s : DatabaseService) :
  (isWeb s = true -> tasks_db (perform r s) = tasks_db s /\ db (perform r s) = db s) /\
  (isWeb s = false ->
   localStorage (perform r s) =
   if is_clearAllTasks r then None else localStorage s).
Proof.
  destruct r; unfold perform, addTask, getAllTasks, deleteTask, updateTask,
    toggleTaskCompletion, closeDatabase, clearAllTasks, bind, settle, ret, throw,
    saveTasksToStorage;
    (split; intros Hb; rewrite ?Hb); cbn [is_clearAllTasks].
  - destruct (image_webview_path task) as [path|]; [destruct (truthy path)|];
      try (split; reflexivity).
    destruct (convertImageToBase64 path w); split; reflexivity.
  - destruct (db s); reflexivity.
  - split; reflexivity.
  - destruct (db s); reflexivity.
  - split; reflexivity.
  - destruct (db s); reflexivity.
  - destruct (findIndex (has_id id') (getStoredTasks s)); split; reflexivity.
  - destruct (db s); [|reflexivity].
    destruct (set_list updates) as [fields values]. destruct fields; reflexivity.
  - destruct (findIndex (has_id id') (getStoredTasks s)); split; reflexivity.
  - destruct (db s); reflexivity.
  - split; reflexivity.
  - simpl. destruct (db s); reflexivity.
  - split; reflexivity.
  - reflexivity.
Qed.

(** X10: A service stays on its backend.  On the browser backend no run of
    calls touches [tasks.db] or the connection field.  On the native backend
    a run in which [clearAllTasks] does not occur leaves the localStorage
    item exactly as it was, and a run in which it occurs leaves no item. *)
Theorem run_stays_on_its_backend (rs : list Request) (s : DatabaseService) :
  (isWeb s = true -> tasks_db (run rs s) = tasks_db s /\ db (run rs s) = db s) /\
  (isWeb s = false ->
   localStorage (run rs s) =
   if existsb is_clearAllTasks rs then None else localStorage s).
Proof.
  unfold run. revert s; induction rs as [|r rs IH]; intros s; simpl.
  - split; intros _; [split; reflexivity | reflexivity].
  - destruct (IH (perform r s)) as [IHw IHn]. destruct (perform_backend r s) as [Hw Hn].
    rewrite perform_isWeb in IHw, IHn. split; intros Hb.
    + destruct (IHw Hb) as [E1 E2]. destruct (Hw Hb) as [E3 E4].
      split; congruence.
    + rewrite (IHn Hb), (Hn Hb).
      destruct (is_clearAllTasks r), (existsb is_clearAllTasks rs); reflexivity.
Qed.

Lemma run_stays_on_its_backend_witness :
  let rs := [req_addTask (note "a" false) (world noon fetch_rejects);
             req_deleteTask 1; req_closeDatabase; req_getAllTasks] in
  let stored := Some (TaskArray [note "kept" false]) in
  let s := snd (initializeDatabase (world noon fetch_rejects)
                  (new_DatabaseService false stored empty_file)) in
  (tasks_db (run rs browser) = tasks_db browser /\ db (run rs browser) = db browser) /\
  localStorage (run rs s) = stored /\
  localStorage (run (rs ++ [req_clearAllTasks; req_getAllTasks]) s) = None.
Proof.
  intros rs stored s. split; [|split].
  - apply (proj1 (run_stays_on_its_backend rs browser)). reflexivity.
  - apply (proj2 (run_stays_on_its_backend rs s)). reflexivity.
  - apply (proj2 (run_stays_on_its_backend (rs ++ [req_clearAllTasks; req_getAllTasks]) s)).
    reflexivity.
Defined.

(** ** Rejected calls *)

Lemma addTask_rejected (task : ITask) (w : World) (s s' : DatabaseService) (e : Thrown) :
  addTask task w s = (Rejected e, s') -> s' = s.
Proof.
  unfold addTask, bind, settle, ret, saveTasksToStorage. destruct (isWeb s).
  - destruct (image_webview_path task) as [path|]; [destruct (truthy path)|];
      try discriminate.
    destruct (convertImageToBase64 path w); [discriminate|]. intros [= _ <-]. reflexivity.
  - destruct (db s); [|intros [= _ <-]; reflexivity].
    unfold SQLite.insert. discriminate.
Qed.

Lemma getAllTasks_rejected (s s' : DatabaseService) (e : Thrown) :
  getAllTasks s = (Rejected e, s') -> s' = s.
Proof.
  unfold getAllTasks. destruct (isWeb s); [discriminate|].
  destruct (db s); [discriminate | intros [= _ <-]; reflexivity].
Qed.

Lemma deleteTask_rejected (i : number) (s s' : DatabaseService) (e : Thrown) :
  deleteTask i s = (Rejected e, s') -> s' = s.
Proof.
  unfold deleteTask, saveTasksToStorage. destruct (isWeb s); [discriminate|].
  destruct (db s); [discriminate | intros [= _ <-]; reflexivity].
Qed.

Lemma updateTask_rejected (i : number) (u : Updates) (s s' : DatabaseService)
    (e : Thrown) :
  updateTask i u s = (Rejected e, s') -> s' = s.
Proof.
  unfold updateTask, saveTasksToStorage, throw. destruct (isWeb s).
  - destruct (findIndex (has_id i) (getStoredTasks s));
      [discriminate | intros [= _ <-]; reflexivity].
  - destruct (db s); [|intros [= _ <-]; reflexivity].
    destruct (set_list u) as [fields values]. destruct fields; discriminate.
Qed.

Lemma toggleTaskCompletion_rejected (i : number) (s s' : DatabaseService) (e : Thrown) :
  toggleTaskCompletion i s = (Rejected e, s') -> s' = s.
Proof.
  unfold toggleTaskCompletion, saveTasksToStorage, throw. destruct (isWeb s).
  - destruct (findIndex (has_id i) (getStoredTasks s));
      [discriminate | intros [= _ <-]; reflexivity].
  - destruct (db s); [discriminate | intros [= _ <-]; reflexivity].
Qed.

(** X11: A data call that is rejected has written nothing: when [addTask],
    [getAllTasks], [deleteTask], [updateTask] or [toggleTaskCompletion] is
    rejected, the stored document, the table, the connection and the log of
    storage calls are what they were before the call.  [closeDatabase] is
    never rejected. *)
Theorem rejected_calls_change_nothing (s s' : DatabaseService) (e : Thrown) :
  (forall task w, addTask task w s = (Rejected e, s') -> s' = s) /\
  (getAllTasks s = (Rejected e, s') -> s' = s) /\
  (forall i, deleteTask i s = (Rejected e, s') -> s' = s) /\
  (forall i u, updateTask i u s = (Rejected e, s') -> s' = s) /\
  (forall i, toggleTaskCompletion i s = (Rejected e, s') -> s' = s) /\
  closeDatabase s <> (Rejected e, s').
Proof.
  split; [intros task w; apply addTask_rejected|].
  split; [apply getAllTasks_rejected|].
  split; [intros i; apply deleteTask_rejected|].
  split; [intros i u; apply updateTask_rejected|].
  split; [intros i; apply toggleTaskCompletion_rejected|].
  unfold closeDatabase. destruct (negb (isWeb s)); [destruct (db s)|]; discriminate.
Qed.

Lemma rejected_calls_change_nothing_witness :
  let s := snd (addTasks abc browser) in
  let task := photo_note "buy milk" "blob:http://localhost/1f0c" in
  let w := world noon (blob onerror) in
  fst (addTask task w s) = Rejected (ProgressEvent "error") /\
  snd (addTask task w s) = s.
Proof.
  intros s task w. split; [reflexivity|].
  apply (proj1 (rejected_calls_change_nothing s (snd (addTask task w s))
                  (ProgressEvent "error")) task w).
  reflexivity.
Defined.

(** ** The fresh service *)

(** X12: A native service that was constructed and not yet initialized has
    no connection: [addTask], [getAllTasks], [deleteTask], [updateTask] and
    [toggleTaskCompletion] are each rejected with 'SQLite database not
    initialized' and change nothing, and [closeDatabase] resolves without
    doing anything.  A browser service serves [getAllTasks] without having
    been initialized; [initializeDatabase] changes nothing there and is
    rejected with 'LocalStorage is not available' exactly when [Storage] is
    undefined. *)
Theorem fresh_service_before_initializeDatabase (stored : option Item)
    (file : SQLite.Database) (w : World) :
  (let s := new_DatabaseService false stored file in
   (forall task w', addTask task w' s = (Rejected NotInitialized, s)) /\
   getAllTasks s = (Rejected NotInitialized, s) /\
   (forall i, deleteTask i s = (Rejected NotInitialized, s)) /\
   (forall i u, updateTask i u s = (Rejected NotInitialized, s)) /\
   (forall i, toggleTaskCompletion i s = (Rejected NotInitialized, s)) /\
   closeDatabase s = (Fulfilled tt, s)) /\
  (let s := new_DatabaseService true stored file in
   getAllTasks s = (Fulfilled (map resolve_image (getStoredTasks s)), s) /\
   initializeDatabase w s =
     (if Storage_defined w then Fulfilled tt
      else Rejected (Error "LocalStorage is not available"), s)).
Proof.
  split.
  - cbv zeta. repeat (split; [reflexivity|]). reflexivity.
  - cbv zeta. split; [reflexivity|].
    unfold initializeDatabase. simpl. destruct (Storage_defined w); reflexivity.
Qed.

(** * The page *)

(** ** [trim] *)

Lemma truthy_trimStart (s : string) :
  truthy (trimStart s) = negb (blank s).
Proof.
  unfold blank. induction s as [|c s IH]; simpl; [reflexivity|].
  destruct (is_white_space c); simpl; [exact IH | reflexivity].
Qed.

Lemma blank_trimStart (s : string) : blank (trimStart s) = blank s.
Proof.
  unfold blank. induction s as [|c s IH]; simpl; [reflexivity|].
  destruct (is_white_space c) eqn:E; simpl; [exact IH | rewrite E; reflexivity].
Qed.

Lemma forallb_rev {A : Type} (p : A -> bool) (l : list A) :
  forallb p (rev l) = forallb p l.
Proof.
  induction l as [|x l IH]; simpl; [reflexivity|].
  rewrite forallb_app, IH. simpl. destruct (p x), (forallb p l); reflexivity.
Qed.

Lemma truthy_string_of_list (l : list ascii) :
  truthy (string_of_list_ascii l) = match l with [] => false | _ => true end.
Proof. destruct l; reflexivity. Qed.

Lemma truthy_trimEnd (s : string) : truthy (trimEnd s) = negb (blank s).
Proof.
  unfold trimEnd. rewrite truthy_string_of_list.
  transitivity (truthy (trimStart (string_of_list_ascii (rev (list_ascii_of_string s))))).
  - destruct (trimStart (string_of_list_ascii (rev (list_ascii_of_string s))))
      as [|c r]; simpl; [reflexivity|].
    destruct (rev (list_ascii_of_string r) ++ [c]) eqn:E; [|reflexivity].
    apply app_eq_nil in E. destruct E as [_ E]. discriminate.
  - rewrite truthy_trimStart. unfold blank.
    rewrite list_ascii_of_string_of_list_ascii, forallb_rev. reflexivity.
Qed.

(** [text.trim()] is the empty string exactly for a text of white space only. *)
Lemma truthy_trim (s : string) : truthy (trim s) = negb (blank s).
Proof. unfold trim. rewrite truthy_trimEnd, blank_trimStart. reflexivity. Qed.

(** ** The filter of the list *)

Lemma filter_split_Permutation {A : Type} (p : A -> bool) (l : list A) :
  Permutation l (filter (fun x => negb (p x)) l ++ filter p l).
Proof.
  induction l as [|x l IH]; simpl; [constructor|].
  destruct (p x); simpl.
  - apply Permutation_cons_app. exact IH.
  - constructor. exact IH.
Qed.

(** X13: The segments split the list: every task is listed under exactly one of
    "active" and "completed", the active ones being those not completed, and
    any other segment value lists all tasks. *)
Theorem getFilteredTasks_partitions (p : Tab1.State) :
  let active := Tab1.getFilteredTasks (Tab1.setFilterSegment "active" p) in
  let done := Tab1.getFilteredTasks (Tab1.setFilterSegment "completed" p) in
  Permutation (Tab1.tasks p) (active ++ done) /\
  Forall (fun t => completed t = false) active /\
  Forall (fun t => completed t = true) done /\
  (forall segment,
     segment <> "active"%string -> segment <> "completed"%string ->
     Tab1.getFilteredTasks (Tab1.setFilterSegment segment p) = Tab1.tasks p).
Proof.
  cbv zeta. unfold Tab1.getFilteredTasks. cbn [Tab1.filterSegment Tab1.setFilterSegment Tab1.tasks].
  cbn [String.eqb Ascii.eqb Bool.eqb]. simpl.
  split; [apply (filter_split_Permutation completed)|].
  split.
  - apply Forall_forall. intros t Ht. apply filter_In in Ht.
    destruct Ht as [_ Ht]. destruct (completed t); [discriminate | reflexivity].
  - split.
    + apply Forall_forall. intros t Ht. apply filter_In in Ht. exact (proj2 Ht).
    + intros segment Ha Hc.
      destruct (String.eqb_spec segment "active"); [contradiction|].
      destruct (String.eqb_spec segment "completed"); [contradiction|]. reflexivity.
Qed.

(** ** The handlers *)

Lemma perform_db (r : Request) (s : DatabaseService) :
  r <> req_closeDatabase -> db (perform r s) = db s.
Proof.
  intros Hr.
  destruct r; unfold perform, addTask, getAllTasks, deleteTask, updateTask,
    toggleTaskCompletion, clearAllTasks, bind, settle, ret, throw,
    saveTasksToStorage, SQLite.insert; try contradiction.
  - destruct (isWeb s).
    + destruct (image_webview_path task) as [path|]; [destruct (truthy path)|];
        try reflexivity.
      destruct (convertImageToBase64 path w); reflexivity.
    + destruct (db s) eqn:E; simpl; rewrite ?E; reflexivity.
  - destruct (isWeb s); [|destruct (db s) eqn:E]; simpl; rewrite ?E; reflexivity.
  - destruct (isWeb s); [|destruct (db s) eqn:E]; simpl; rewrite ?E; reflexivity.
  - destruct (isWeb s).
    + destruct (findIndex (has_id id') (getStoredTasks s)); reflexivity.
    + destruct (db s) eqn:E; [|simpl; rewrite ?E; reflexivity].
      destruct (set_list updates) as [fields values].
      destruct fields; simpl; rewrite ?E; reflexivity.
  - destruct (isWeb s).
    + destruct (findIndex (has_id id') (getStoredTasks s)); reflexivity.
    + destruct (db s) eqn:E; simpl; rewrite ?E; reflexivity.
  - reflexivity.
Qed.

Lemma perform_ready (r : Request) (s : DatabaseService) :
  r <> req_closeDatabase -> ready s -> ready (perform r s).
Proof.
  intros Hr H. unfold ready. rewrite perform_isWeb, (perform_db r s Hr). exact H.
Qed.

(** Reading twice gives the same list. *)
Lemma getAllTasks_again (s : DatabaseService) :
  ready s ->
  exists l,
    fst (getAllTasks s) = Fulfilled l /\
    ready (snd (getAllTasks s)) /\
    fst (getAllTasks (snd (getAllTasks s))) = Fulfilled l.
Proof.
  intros H. unfold getAllTasks, ready in *. destruct (isWeb s) eqn:Hweb.
  - eexists. cbn [fst snd]. rewrite Hweb. repeat split. left; reflexivity.
  - destruct H as [H | H]; [discriminate|]. destruct (db s) eqn:Hc; [|congruence].
    eexists. cbn [fst snd isWeb db tasks_db call]. rewrite Hweb, Hc.
    repeat split. right; discriminate.
Qed.

Lemma loadTasks_in_sync (p : Tab1.State) (s : DatabaseService) :
  ready s ->
  ready (snd (Tab1.loadTasks (p, s))) /\
  in_sync (fst (Tab1.loadTasks (p, s))) (snd (Tab1.loadTasks (p, s))) /\
  fst (getAllTasks s) = Fulfilled (Tab1.tasks (fst (Tab1.loadTasks (p, s)))) /\
  Tab1.newTask (fst (Tab1.loadTasks (p, s))) = Tab1.newTask p /\
  Tab1.isOpen (fst (Tab1.loadTasks (p, s))) = Tab1.isOpen p.
Proof.
  intros H. destruct (getAllTasks_again s H) as (l & E1 & Hr & E2).
  unfold Tab1.loadTasks, in_sync. destruct (getAllTasks s) as [[l'|e] s'] eqn:E;
    simpl in E1; [|discriminate].
  injection E1 as <-. simpl in *. repeat split; assumption.
Qed.

(** The service's [addTask], seen through [getAllTasks]: one record is put in. *)
Lemma addTask_inserts (s : DatabaseService) (task : ITask) (w : World) :
  ready s ->
  (isWeb s = true -> encodes (task, w) = true) ->
  exists i s' l1 t l2,
    addTask task w s = (Fulfilled i, s') /\
    fst (getAllTasks s) = Fulfilled (l1 ++ l2) /\
    fst (getAllTasks s') = Fulfilled (l1 ++ t :: l2) /\
    id t = Some i /\ text t = text task /\ completed t = false.
Proof.
  intros Hready Henc. destruct (isWeb s) eqn:Hweb.
  - destruct (addTask_browser s task w Hweb (Henc eq_refl)) as [b E].
    eexists. eexists. exists []. eexists. eexists.
    split; [exact E|]. unfold getAllTasks.
    cbn [isWeb call set_localStorage getStoredTasks localStorage fst].
    rewrite Hweb. cbn [fst map app].
    split; [reflexivity|]. split; [reflexivity|]. repeat split.
  - destruct Hready as [Hready | Hready]; [congruence|].
    rewrite (addTask_native s task w Hweb Hready).
    destruct (order_by_snoc (SQLite.tasks (tasks_db s))
                {| SQLite.row_id := SQLite.next_rowid (tasks_db s);
                   SQLite.row_text := text task;
                   SQLite.row_image_filepath := image_filepath task;
                   SQLite.row_image_webview_path := or_empty (image_webview_path task);
                   SQLite.row_image_base64 := or_empty (image_base64 task);
                   SQLite.row_completed := 0;
                   SQLite.row_created_at := CURRENT_TIMESTAMP w |})
      as (a & b & E1 & E2).
    eexists. eexists. exists (map of_row a). eexists. exists (map of_row b).
    split; [reflexivity|]. unfold getAllTasks.
    cbn [isWeb db tasks_db call set_tasks_db fst snd SQLite.insert].
    rewrite Hweb. destruct (db s); [|congruence]. cbn [fst].
    unfold SQLite.select_all. cbn [SQLite.tasks]. rewrite E1, E2.
    rewrite !map_app. cbn [map].
    split; [reflexivity|]. split; [reflexivity|]. repeat split.
Qed.

(** X14: The page never sends a text of white space only to the service: its
    [addTask] then makes no call and leaves the form, the modal and the list
    as they are. *)
Theorem page_addTask_ignores_blank_text (w : World) (p : Tab1.State)
    (s : DatabaseService) :
  blank (text (Tab1.newTask p)) = true ->
  Tab1.addTask w (p, s) = (p, s).
Proof.
  intros Hb. unfold Tab1.addTask. rewrite truthy_trim, Hb. reflexivity.
Qed.

Lemma page_addTask_ignores_blank_text_witness :
  let p := Tab1.setNewTask (note "  " false) Tab1.initial in
  Tab1.addTask (world noon fetch_rejects) (p, browser) = (p, browser).
Proof.
  intros p. apply (page_addTask_ignores_blank_text (world noon fetch_rejects) p browser).
  reflexivity.
Defined.

(** X15: When the form holds a text that is not blank and the service takes the
    task, the page's [addTask] stores one task with that text, not completed,
    resets the form, closes the modal and lists what the service now
    returns: the former list with the new task put in. *)
Theorem page_addTask_saves (w : World) (p : Tab1.State) (s : DatabaseService) :
  ready s ->
  blank (text (Tab1.newTask p)) = false ->
  (isWeb s = true -> encodes (Tab1.newTask p, w) = true) ->
  exists p' s' l1 t l2,
    Tab1.addTask w (p, s) = (p', s') /\
    Tab1.newTask p' = Tab1.DEFAULT_VALUES /\
    Tab1.isOpen p' = false /\
    in_sync p' s' /\
    fst (getAllTasks s) = Fulfilled (l1 ++ l2) /\
    Tab1.tasks p' = l1 ++ t :: l2 /\
    text t = text (Tab1.newTask p) /\
    completed t = false.
Proof.
  intros Hready Hb Henc. unfold Tab1.addTask. rewrite truthy_trim, Hb. cbn [negb].
  destruct (addTask_inserts s (Tab1.taskToAdd p) w Hready Henc)
    as (i & s1 & l1 & t & l2 & E & Hbefore & Hafter & _ & Ht & Hc).
  rewrite E.
  assert (Hready1 : ready s1).
  { replace s1 with (perform (req_addTask (Tab1.taskToAdd p) w) s)
      by (unfold perform; rewrite E; reflexivity).
    apply perform_ready; [discriminate | exact Hready]. }
  set (p1 := Tab1.setIsOpen false (Tab1.setNewTask Tab1.DEFAULT_VALUES p)).
  destruct (loadTasks_in_sync p1 s1 Hready1) as (_ & Hsync & Hl & Hn & Ho).
  exists (fst (Tab1.loadTasks (p1, s1))), (snd (Tab1.loadTasks (p1, s1))), l1, t, l2.
  split; [destruct (Tab1.loadTasks (p1, s1)); reflexivity|].
  split; [exact Hn|]. split; [exact Ho|]. split; [exact Hsync|].
  split; [exact Hbefore|]. split; [|split; [exact Ht | exact Hc]].
  rewrite Hafter in Hl. injection Hl as Hl. symmetry. exact Hl.
Qed.

Lemma page_addTask_saves_witness :
  let w := world noon fetch_rejects in
  let p := Tab1.setIsOpen true (Tab1.setNewTask (note " buy milk " true) Tab1.initial) in
  exists p' s' l1 t l2,
    Tab1.addTask w (p, device) = (p', s') /\
    Tab1.newTask p' = Tab1.DEFAULT_VALUES /\
    Tab1.isOpen p' = false /\
    in_sync p' s' /\
    fst (getAllTasks device) = Fulfilled (l1 ++ l2) /\
    Tab1.tasks p' = l1 ++ t :: l2 /\
    text t = text (Tab1.newTask p) /\
    completed t = false.
Proof.
  intros w p. apply (page_addTask_saves w p device).
  - right; discriminate.
  - reflexivity.
  - intros _; reflexivity.
Defined.

(** X16: When the service rejects the call, a handler of the page logs the error
    and leaves everything as it was: the form keeps its input, the modal and
    the alert stay as they are, and nothing was stored. *)
Theorem page_handlers_absorb_rejections (p : Tab1.State) (s : DatabaseService)
    (e : Thrown) :
  (forall w, fst (addTask (Tab1.taskToAdd p) w s) = Rejected e ->
             Tab1.addTask w (p, s) = (p, s)) /\
  (forall i, fst (deleteTask i s) = Rejected e -> Tab1.deleteTask i (p, s) = (p, s)) /\
  (forall i, fst (toggleTaskCompletion i s) = Rejected e ->
             Tab1.toggleTaskCompletion i (p, s) = (p, s)) /\
  (fst (getAllTasks s) = Rejected e -> Tab1.loadTasks (p, s) = (p, s)).
Proof.
  split; [|split; [|split]].
  - intros w H. unfold Tab1.addTask.
    destruct (truthy (trim (text (Tab1.newTask p)))); [|reflexivity].
    destruct (addTask (Tab1.taskToAdd p) w s) as [[v|e'] s'] eqn:E; [discriminate|].
    rewrite (addTask_rejected _ _ _ _ _ E). reflexivity.
  - intros i H. unfold Tab1.deleteTask.
    destruct (deleteTask i s) as [[v|e'] s'] eqn:E; [discriminate|].
    rewrite (deleteTask_rejected _ _ _ _ E). reflexivity.
  - intros i H. unfold Tab1.toggleTaskCompletion.
    destruct (toggleTaskCompletion i s) as [[v|e'] s'] eqn:E; [discriminate|].
    rewrite (toggleTaskCompletion_rejected _ _ _ _ E). reflexivity.
  - intros H. unfold Tab1.loadTasks.
    destruct (getAllTasks s) as [[v|e'] s'] eqn:E; [discriminate|].
    rewrite (getAllTasks_rejected _ _ _ E). reflexivity.
Qed.

Lemma page_handlers_absorb_rejections_witness :
  let p := Tab1.setIsOpen true
             (Tab1.setNewTask (photo_note "buy milk" "blob:http://localhost/1f0c")
                Tab1.initial) in
  Tab1.addTask (world noon (blob onerror)) (p, browser) = (p, browser).
Proof.
  intros p.
  apply (proj1 (page_handlers_absorb_rejections p browser (ProgressEvent "error"))
           (world noon (blob onerror))).
  reflexivity.
Defined.

(** X17: On a freshly constructed browser service [initializeApp] always ends
    with the loading flag down and leaves the service as it was.  When
    [Storage] is undefined the list on the page stays as it was; otherwise
    the page lists the stored tasks, as [getAllTasks] returns them. *)
Theorem initializeApp_on_fresh_browser (stored : option Item)
    (file : SQLite.Database) (w : World) (p : Tab1.State) :
  let s := new_DatabaseService true stored file in
  let p' := fst (Tab1.initializeApp w (p, s)) in
  let s' := snd (Tab1.initializeApp w (p, s)) in
  Tab1.isLoading p' = false /\
  s' = s /\
  (Storage_defined w = false -> Tab1.tasks p' = Tab1.tasks p) /\
  (Storage_defined w = true ->
   Tab1.tasks p' = map resolve_image (getStoredTasks s) /\ in_sync p' s').
Proof.
  cbv zeta. unfold Tab1.initializeApp, initializeDatabase, Tab1.loadTasks, getAllTasks,
    in_sync.
  cbn [isWeb new_DatabaseService]. destruct (Storage_defined w); cbn [fst snd].
  - split; [reflexivity|]. split; [reflexivity|]. split; [discriminate|].
    intros _. split; reflexivity.
  - split; [reflexivity|]. split; [reflexivity|]. split; [reflexivity | discriminate].
Qed.

Lemma initializeApp_on_fresh_browser_witness :
  let w := world noon fetch_rejects in
  let stored := localStorage (snd (addTasks abc browser)) in
  let s := new_DatabaseService true stored empty_file in
  let p' := fst (Tab1.initializeApp w (Tab1.initial, s)) in
  let s' := snd (Tab1.initializeApp w (Tab1.initial, s)) in
  Tab1.tasks p' = map resolve_image (getStoredTasks s) /\ in_sync p' s'.
Proof.
  intros w stored s p' s'.
  apply (proj2 (proj2 (proj2
           (initializeApp_on_fresh_browser stored empty_file w Tab1.initial)))).
  reflexivity.
Defined.

(** X18: The list on the page follows the store: when the page lists what a ready
    service returns, it still does after any of its handlers has run, whether
    the service took the call or rejected it. *)
Theorem handlers_keep_the_list_in_sync (p : Tab1.State) (s : DatabaseService) :
  ready s -> in_sync p s ->
  forall h,
    (h = Tab1.loadTasks \/
     (exists w, h = Tab1.addTask w) \/
     (exists i, h = Tab1.deleteTask i) \/
     (exists i, h = Tab1.toggleTaskCompletion i) \/
     h = Tab1.alert_Delete \/
     (exists task, h = Tab1.checkbox_onIonChange task)) ->
    ready (snd (h (p, s))) /\ in_sync (fst (h (p, s))) (snd (h (p, s))).
Proof.
  intros Hready Hsync.
  assert (Hload : forall p0 r, r <> req_closeDatabase ->
            ready (snd (Tab1.loadTasks (p0, perform r s))) /\
            in_sync (fst (Tab1.loadTasks (p0, perform r s)))
                    (snd (Tab1.loadTasks (p0, perform r s)))).
  { intros p0 r Hr.
    destruct (loadTasks_in_sync p0 (perform r s) (perform_ready r s Hr Hready))
      as (H1 & H2 & _). split; assumption. }
  assert (Hadd : forall w, ready (snd (Tab1.addTask w (p, s))) /\
                           in_sync (fst (Tab1.addTask w (p, s))) (snd (Tab1.addTask w (p, s)))).
  { intros w. unfold Tab1.addTask.
    destruct (truthy (trim (text (Tab1.newTask p)))); [|split; assumption].
    pose proof (Hload (Tab1.setIsOpen false (Tab1.setNewTask Tab1.DEFAULT_VALUES p))
                  (req_addTask (Tab1.taskToAdd p) w)) as H.
    unfold perform in H.
    destruct (addTask (Tab1.taskToAdd p) w s) as [[v|e] s'] eqn:E.
    - apply H. discriminate.
    - rewrite (addTask_rejected _ _ _ _ _ E). split; assumption. }
  assert (Hdel : forall i, ready (snd (Tab1.deleteTask i (p, s))) /\
                           in_sync (fst (Tab1.deleteTask i (p, s)))
                                   (snd (Tab1.deleteTask i (p, s)))).
  { intros i. unfold Tab1.deleteTask.
    pose proof (Hload p (req_deleteTask i)) as H. unfold perform in H.
    destruct (deleteTask i s) as [[v|e] s'] eqn:E.
    - cbn [snd] in H. destruct (Tab1.loadTasks (p, s')) as [p1 s1].
      apply H. discriminate.
    - rewrite (deleteTask_rejected _ _ _ _ E). split; assumption. }
  assert (Htog : forall i, ready (snd (Tab1.toggleTaskCompletion i (p, s))) /\
                           in_sync (fst (Tab1.toggleTaskCompletion i (p, s)))
                                   (snd (Tab1.toggleTaskCompletion i (p, s)))).
  { intros i. unfold Tab1.toggleTaskCompletion.
    pose proof (Hload p (req_toggleTaskCompletion i)) as H. unfold perform in H.
    destruct (toggleTaskCompletion i s) as [[v|e] s'] eqn:E.
    - apply H. discriminate.
    - rewrite (toggleTaskCompletion_rejected _ _ _ _ E). split; assumption. }
  intros h [-> | [[w ->] | [[i ->] | [[i ->] | [-> | [task ->]]]]]].
  - destruct (loadTasks_in_sync p s Hready) as (H1 & H2 & _). split; assumption.
  - apply Hadd.
  - apply Hdel.
  - apply Htog.
  - unfold Tab1.alert_Delete. destruct (Tab1.taskId (Tab1.deleteAlert p)) as [n|];
      [|split; assumption].
    destruct (truthy_number (Some n)); [apply Hdel | split; assumption].
  - unfold Tab1.checkbox_onIonChange. destruct (id task) as [n|]; [|split; assumption].
    destruct (truthy_number (Some n)); [apply Htog | split; assumption].
Qed.

Lemma handlers_keep_the_list_in_sync_witness :
  let w := world noon fetch_rejects in
  let p := Tab1.setNewTask (note "a" false) Tab1.initial in
  ready (snd (Tab1.addTask w (p, browser))) /\
  in_sync (fst (Tab1.addTask w (p, browser))) (snd (Tab1.addTask w (p, browser))).
Proof.
  intros w p.
  apply (handlers_keep_the_list_in_sync p browser).
  - left; reflexivity.
  - reflexivity.
  - right; left. exists w. reflexivity.
Defined.
